(** * Mood-based discovery backend: context service and Yelp client

    A shallow embedding of the two service classes of the backend,
    [ContextService] (time of day, weather fallback, keyword and
    pattern extraction from a conversation) and [YelpService] (cache,
    retry loop, response and error normalisation), followed by the
    properties proved about them.

    Conventions.
    - A JavaScript [number] that holds a measurement (coordinates,
      ratings, scores, temperatures) is a binary64 [float]; one that
      holds a count, an HTTP status or a clock reading in milliseconds
      is a [Z].
    - An optional field, [undefined] or [null] is an [option].
    - A character of a string stands for one UTF-16 code unit in the
      range 0 to 255 (Basic Latin and Latin-1 Supplement).  On that
      range [toLowerCase], [trim], the white-space class and the
      classes and case folding of the patterns are the runtime's own;
      text that holds a code unit above 255 is outside the model.
    - An [async] method is a function on an explicit outside world;
      calls that leave the process are recorded in a log. *)

From Stdlib Require Import ZArith Ascii String List Bool Lia Floats DecimalString.
From stdpp Require Import base option strings gmap.

Open Scope string_scope.
Open Scope Z_scope.

(** ** JavaScript helpers *)

Module Js.

(** Truthiness of a string and of a number. *)
Definition truthy_string (s : string) : bool :=
  match s with EmptyString => false | String _ _ => true end.

Definition truthy_Z (n : Z) : bool := negb (Z.eqb n 0).

(** [a || b] on optional strings. *)
Definition or_string (a : option string) (b : option string) : option string :=
  match a with
  | Some s => if truthy_string s then Some s else b
  | None => b
  end.

(** [a || b] where [b] is a string. *)
Definition or_else (a : option string) (b : string) : string :=
  match a with
  | Some s => if truthy_string s then s else b
  | None => b
  end.

Definition isUpper (c : ascii) : bool :=
  let n := nat_of_ascii c in (Nat.leb 65 n) && (Nat.leb n 90).

Definition isLower (c : ascii) : bool :=
  let n := nat_of_ascii c in (Nat.leb 97 n) && (Nat.leb n 122).

Definition isDigit (c : ascii) : bool :=
  let n := nat_of_ascii c in (Nat.leb 48 n) && (Nat.leb n 57).

(** White space and line terminators, the class [\s] of a pattern and
    what [trim] strips: tab, line feed, vertical tab, form feed,
    carriage return, space and the no-break space U+00A0 (the other
    members of the class lie above U+00FF). *)
Definition isSpace (c : ascii) : bool :=
  let n := nat_of_ascii c in
  ((Nat.leb 9 n) && (Nat.leb n 13)) || Nat.eqb n 32 || Nat.eqb n 160.

(** The class [\w]: letters, digits and the underscore. *)
Definition isWordChar (c : ascii) : bool :=
  isUpper c || isLower c || isDigit c || Nat.eqb (nat_of_ascii c) 95.

(** The capital letters of the range: A to Z, and U+00C0 to U+00DE
    without the multiplication sign U+00D7. *)
Definition isCapital (c : ascii) : bool :=
  let n := nat_of_ascii c in
  isUpper c || ((Nat.leb 192 n) && (Nat.leb n 222) && negb (Nat.eqb n 215)).

(** The lower-case mapping of one code unit: a capital letter moves up
    by 32, every other code unit stays.  Two code units are equal under
    the case folding of a pattern with flag [i] exactly when their
    images are equal. *)
Definition lowerChar (c : ascii) : ascii :=
  if isCapital c then ascii_of_nat (nat_of_ascii c + 32) else c.

Fixpoint toLowerCase (s : string) : string :=
  match s with
  | EmptyString => EmptyString
  | String c s' => String (lowerChar c) (toLowerCase s')
  end.

(** [text.includes(keyword)]. *)
Fixpoint includes (text keyword : string) : bool :=
  String.prefix keyword text ||
  match text with
  | EmptyString => false
  | String _ text' => includes text' keyword
  end.

(** [parts.join(sep)]. *)
Fixpoint join (sep : string) (parts : list string) : string :=
  match parts with
  | [] => EmptyString
  | [p] => p
  | p :: rest => p +:+ sep +:+ join sep rest
  end.

Definition digitValue (c : ascii) : Z := Z.of_nat (nat_of_ascii c) - 48.

Fixpoint parseDigits (acc : option Z) (s : string) : option Z :=
  match s with
  | String c s' =>
      if isDigit c
      then parseDigits (Some (10 * default 0 acc + digitValue c)) s'
      else acc
  | EmptyString => acc
  end.

Fixpoint skipSpaces (s : string) : string :=
  match s with
  | String c s' => if isSpace c then skipSpaces s' else s
  | EmptyString => s
  end.

(** [parseInt(s, 10)]: leading white space, an optional sign, then the
    longest run of decimal digits; [None] stands for [NaN].  (For a run
    too long for a binary64 the runtime rounds; the value is then far
    above any bound this program compares it with.) *)
Definition parseInt10 (s : string) : option Z :=
  match skipSpaces s with
  | String "-" s' => Z.opp <$> parseDigits None s'
  | String "+" s' => parseDigits None s'
  | s' => parseDigits None s'
  end.

(** [String(n)] for an integer [n].  Up to a magnitude of 2^53 the
    runtime prints the decimal digits, with a minus sign for a negative
    number.  Above it the digits are rounded, and from 1e21 on the
    notation has an exponent: [bigForm] stands for the runtime's
    printing there. *)
Definition numberToString (bigForm : Z -> string) (n : Z) : string :=
  if Z.abs n <=? 2 ^ 53 then NilZero.string_of_int (Z.to_int n) else bigForm n.

(** The no-break space U+00A0 as a one-character string. *)
Definition noBreakSpace : string := String (ascii_of_nat 160) EmptyString.

(** The double-quote character as a one-character string. *)
Definition quote : string := String (ascii_of_nat 34) EmptyString.

(** The string without its trailing white space. *)
Fixpoint trimEnd (s : string) : string :=
  match s with
  | EmptyString => EmptyString
  | String c s' =>
      match trimEnd s' with
      | EmptyString => if isSpace c then EmptyString else String c EmptyString
      | rest => String c rest
      end
  end.

(** [s.trim()] *)
Definition trim (s : string) : string := trimEnd (skipSpaces s).

(** The first and the last character of a string, and whether a string
    consists of white space only. *)
Definition firstChar (s : string) : option ascii :=
  match s with String c _ => Some c | EmptyString => None end.

Fixpoint lastChar (s : string) : option ascii :=
  match s with
  | EmptyString => None
  | String c EmptyString => Some c
  | String _ s' => lastChar s'
  end.

Fixpoint allSpace (s : string) : bool :=
  match s with
  | EmptyString => true
  | String c s' => isSpace c && allSpace s'
  end.

(** [s.startsWith(p)] *)
Definition startsWith (s p : string) : bool := String.prefix p s.

(** [s.substring(n)] for [n] within the string or past its end. *)
Fixpoint substringFrom (n : nat) (s : string) : string :=
  match n, s with
  | O, _ => s
  | S n', String _ s' => substringFrom n' s'
  | S _, EmptyString => EmptyString
  end.

End Js.

(** ** The patterns of the group-size table

    The six regular expressions of the source use four constructs only;
    [matchAtoms] is a backtracking matcher for sequences of them, greedy
    on [+] as the runtime's is, and [String_match] is the search for the
    leftmost match that [text.match(pattern)] performs. *)

Module Regex.
Import Js.

Inductive Atom : Type :=
| WordBoundary                (* \b *)
| Literal (s : string)        (* literal text, letters compared without case (flag i) *)
| Spaces                      (* \s+ *)
| DigitsGroup.                (* (\d+), capture group 1 *)

Definition atBoundary (prev : option ascii) (s : string) : bool :=
  xorb (match prev with Some c => isWordChar c | None => false end)
       (match s with String c _ => isWordChar c | EmptyString => false end).

Fixpoint matchLiteral (lit : string) (prev : option ascii) (s : string)
  : option (option ascii * string) :=
  match lit with
  | EmptyString => Some (prev, s)
  | String l lit' =>
      match s with
      | String c s' =>
          if Ascii.eqb (lowerChar l) (lowerChar c)
          then matchLiteral lit' (Some c) s'
          else None
      | EmptyString => None
      end
  end.

Section Plus.
Context {R : Type} (p : ascii -> bool).
Context (k : string -> option ascii -> string -> option R).

(** One or more characters of class [p], the longest run first, each
    shorter run tried when the continuation [k] fails. *)
Fixpoint matchPlus (taken : string) (prev : option ascii) (s : string) : option R :=
  match s with
  | String c s' =>
      if p c then
        match matchPlus (taken +:+ String c EmptyString) (Some c) s' with
        | Some r => Some r
        | None => k (taken +:+ String c EmptyString) (Some c) s'
        end
      else None
  | EmptyString => None
  end.
End Plus.

(** The result is the content of capture group 1, [None] inside when
    the group took no part. *)
Fixpoint matchAtoms (re : list Atom) (cap : option string)
         (prev : option ascii) (s : string) : option (option string) :=
  match re with
  | [] => Some cap
  | WordBoundary :: re' =>
      if atBoundary prev s then matchAtoms re' cap prev s else None
  | Literal lit :: re' =>
      match matchLiteral lit prev s with
      | Some (prev', s') => matchAtoms re' cap prev' s'
      | None => None
      end
  | Spaces :: re' =>
      matchPlus isSpace (fun _ prev' s' => matchAtoms re' cap prev' s') EmptyString prev s
  | DigitsGroup :: re' =>
      matchPlus isDigit (fun d prev' s' => matchAtoms re' (Some d) prev' s') EmptyString prev s
  end.

Fixpoint searchFrom (re : list Atom) (prev : option ascii) (s : string)
  : option (option string) :=
  match matchAtoms re None prev s with
  | Some m => Some m
  | None =>
      match s with
      | String c s' => searchFrom re (Some c) s'
      | EmptyString => None
      end
  end.

Definition String_match (text : string) (re : list Atom) : option (option string) :=
  searchFrom re None text.

End Regex.

(** ** Shared types *)

Inductive Role : Type := user | assistant.

Definition Role_eqb (a b : Role) : bool :=
  match a, b with
  | user, user | assistant, assistant => true
  | _, _ => false
  end.

Record Recommendation : Type := {
  placeId : string;
  placeName : string;
  relevanceScore : float;
  reasoning : option string;
}.

Record Message : Type := {
  role : Role;
  content : string;
  timestamp : Z;
  recommendations : option (list Recommendation);
}.

Record Coordinates : Type := { lat : float; lng : float }.

Record NamedLocation : Type := {
  loc_lat : float;
  loc_lng : float;
  loc_name : string;
}.

Record ConversationContext : Type := {
  location : option NamedLocation;
  timeOfDay : option string;
  weather : option string;
  groupSize : option Z;
  occasion : option string;
  mood : option string;
}.

(** [Partial<ConversationContext>] with every field unset. *)
Definition emptyContext : ConversationContext :=
  {| location := None; timeOfDay := None; weather := None;
     groupSize := None; occasion := None; mood := None |}.

Record Place : Type := {
  place_placeId : string;
  place_name : string;
  place_address : string;
  place_rating : float;
  place_categories : list string;
  place_photos : list string;
  place_coordinates : Coordinates;
  place_phone : option string;
  place_hours : option string;
  place_priceRange : option string;
}.

Inductive TimeOfDay : Type := morning | afternoon | evening | night.

(** A [Date]: the instant, and what [getHours] and
    [toLocaleDateString('en-US', {weekday: 'long'})] answer for it. *)
Record Date : Type := {
  epochMs : Z;
  getHours : Z;
  weekdayLong : string;
}.

Record TimeContext : Type := {
  tc_timestamp : Date;
  tc_timeOfDay : TimeOfDay;
  tc_dayOfWeek : string;
}.

Record WeatherContext : Type := {
  condition : string;
  temperature : float;
  wc_description : string;
}.

Record LocationContext : Type := {
  lc_lat : float;
  lc_lng : float;
  lc_name : option string;
}.

Record CurrentContext : Type := {
  cc_time : TimeContext;
  cc_weather : option WeatherContext;
  cc_location : LocationContext;
}.

(** ** Effects *)

(** What a [try] block or an awaited promise ends with. *)
Inductive Completion (E A : Type) : Type :=
| Return (a : A)
| Throw (e : E).
Arguments Return {E A} a.
Arguments Throw {E A} e.

(** The body of an error response, as far as the client reads it:
    [data.error] and [data.error.description]. *)
Record ErrorObject : Type := { description : option string }.
Record ErrorData : Type := { error : option ErrorObject }.

Record ErrorResponse : Type := {
  status : Z;
  data : option ErrorData;
}.

(** A thrown value ([unknown] in the source). *)
Inductive Thrown : Type :=
| AxiosError (msg : string) (response : option ErrorResponse)
| PlainError (msg : string)
| ThrownNull.

Definition isAxiosError (e : Thrown) : bool :=
  match e with AxiosError _ _ => true | _ => false end.

(** [error.response?.status] *)
Definition responseStatus (e : Thrown) : option Z :=
  match e with
  | AxiosError _ (Some r) => Some (status r)
  | _ => None
  end.

(** [error.response?.data] *)
Definition responseData (e : Thrown) : option ErrorData :=
  match e with
  | AxiosError _ (Some r) => data r
  | _ => None
  end.

Definition thrownMessage (e : Thrown) : option string :=
  match e with
  | AxiosError m _ | PlainError m => Some m
  | ThrownNull => None
  end.

(** Calls that leave the process, in the order they were made. *)
Inductive Event : Type :=
| EvRequest               (* a request function was invoked *)
| EvSleep (ms : Z)        (* a timer of [ms] milliseconds was awaited *)
| EvWarn.                 (* console.warn *)

Definition Event_isRequest (e : Event) : bool :=
  match e with EvRequest => true | _ => false end.

Definition requests (l : list Event) : nat :=
  List.length (List.filter Event_isRequest l).

Record Sys (World : Type) : Type := {
  world : World;
  log : list Event;
}.
Arguments world {World} _.
Arguments log {World} _.

Definition record {World : Type} (e : Event) (sys : Sys World) : Sys World :=
  {| world := world sys; log := log sys ++ [e] |}.

(** ** ContextService *)

Module ContextService.
Import Js Regex.

Record AxiosInstance : Type := {
  baseURL : string;
  timeout : Z;
}.

Record t : Type := {
  weatherClient : option AxiosInstance;
  weatherApiKey : option string;
}.

(** [weatherApiKey || process.env.OPENWEATHER_API_KEY || null] *)
Definition constructor (weatherApiKeyArg env_OPENWEATHER_API_KEY : option string) : t :=
  let key := or_string (or_string weatherApiKeyArg env_OPENWEATHER_API_KEY) None in
  {| weatherApiKey := key;
     weatherClient :=
       match key with
       | Some _ =>
           Some {| baseURL := "https://api.openweathermap.org/data/2.5";
                   timeout := 5000 |}
       | None => None
       end |}.

Definition getTimeContext (now : Date) : TimeContext :=
  let hour := getHours now in
  let dayOfWeek := weekdayLong now in
  let timeOfDay :=
    if (5 <=? hour) && (hour <? 12) then morning
    else if (12 <=? hour) && (hour <? 17) then afternoon
    else if (17 <=? hour) && (hour <? 21) then evening
    else night in
  {| tc_timestamp := now; tc_timeOfDay := timeOfDay; tc_dayOfWeek := dayOfWeek |}.

Record WeatherEntry : Type := { we_main : string; we_description : string }.
Record WeatherMain : Type := { temp : float }.
Record OpenWeatherResponse : Type := {
  ow_weather : list WeatherEntry;
  ow_main : WeatherMain;
}.

Record WeatherParams : Type := {
  wp_lat : float;
  wp_lon : float;
  appid : string;
  units : string;
}.

Section Async.
Context {World : Type}.
(** [new Date()] *)
Context (clock : World -> Date).
(** [client.get('/weather', {params})]: any rejection (transport
    failure, non-2xx status, timeout) is a [Throw]. *)
Context (weather_get : AxiosInstance -> string -> WeatherParams -> World ->
                       Completion Thrown OpenWeatherResponse * World).

Definition getWeatherWithFallback (self : t) (location : LocationContext)
           (sys : Sys World) : option WeatherContext * Sys World :=
  match weatherClient self, weatherApiKey self with
  | Some client, Some key =>
      if truthy_string key then
        let params := {| wp_lat := lc_lat location; wp_lon := lc_lng location;
                         appid := key; units := "imperial" |} in
        let '(r, w') := weather_get client "/weather" params (world sys) in
        let sys' := {| world := w'; log := log sys ++ [EvRequest] |} in
        match r with
        | Return response =>
            (* response.data.weather[0] of an empty list is undefined, and
               reading .main of it throws inside the try block *)
            match ow_weather response with
            | w0 :: _ =>
                (Some {| condition := we_main w0;
                         temperature := temp (ow_main response);
                         wc_description := we_description w0 |}, sys')
            | [] => (None, record EvWarn sys')
            end
        | Throw _ => (None, record EvWarn sys')
        end
      else (None, sys)
  | _, _ => (None, sys)
  end.

Definition getCurrentContext (self : t) (location : LocationContext)
           (sys : Sys World) : Completion Thrown CurrentContext * Sys World :=
  let time := getTimeContext (clock (world sys)) in
  let '(weather, sys') := getWeatherWithFallback self location sys in
  (Return {| cc_time := time; cc_weather := weather; cc_location := location |}, sys').
End Async.

(** *** Extraction from a conversation *)

Definition moodKeywords : list (string * list string) :=
  [ ("romantic", ["romantic"; "date"; "intimate"; "cozy"; "candlelit"]);
    ("casual", ["casual"; "relaxed"; "laid-back"; "chill"]);
    ("energetic", ["energetic"; "lively"; "vibrant"; "bustling"; "busy"]);
    ("quiet", ["quiet"; "peaceful"; "calm"; "serene"; "tranquil"]);
    ("upscale", ["upscale"; "fancy"; "elegant"; "sophisticated"; "fine dining"]) ].

Definition occasionKeywords : list (string * list string) :=
  [ ("date night", ["date"; "romantic dinner"; "anniversary"]);
    ("business meeting", ["business"; "meeting"; "professional"; "client"]);
    ("group hangout", ["friends"; "group"; "hangout"; "gathering"]);
    ("family dinner", ["family"; "kids"; "children"]);
    ("celebration", ["celebration"; "birthday"; "party"; "special occasion"]) ].

Definition groupSizePatterns : list (list Atom) :=
  [ [WordBoundary; DigitsGroup; Spaces; Literal "people"; WordBoundary];
    [WordBoundary; Literal "group"; Spaces; Literal "of"; Spaces; DigitsGroup; WordBoundary];
    [WordBoundary; Literal "party"; Spaces; Literal "of"; Spaces; DigitsGroup; WordBoundary];
    [WordBoundary; DigitsGroup; Spaces; Literal "of"; Spaces; Literal "us"; WordBoundary];
    [WordBoundary; Literal "for"; Spaces; DigitsGroup; WordBoundary];
    [WordBoundary; Literal "just"; Spaces; Literal "for"; Spaces; DigitsGroup; WordBoundary] ].

(** The loop over [Object.entries(table)]: the first entry one of whose
    keywords occurs in the text. *)
Fixpoint firstKeywordMatch (table : list (string * list string)) (text : string)
  : option string :=
  match table with
  | [] => None
  | (name, keywords) :: rest =>
      if existsb (fun keyword => includes text keyword) keywords
      then Some name
      else firstKeywordMatch rest text
  end.

(** What one pattern contributes: the size it captures at its leftmost
    match, when that size is positive and at most 100. *)
Definition patternSize (text : string) (pattern : list Atom) : option Z :=
  match String_match text pattern with
  | Some (Some digits) =>
      if truthy_string digits then
        match parseInt10 digits with
        | Some size => if (0 <? size) && (size <=? 100) then Some size else None
        | None => None
        end
      else None
  | _ => None
  end.

(** The loop over the patterns, left at the first accepted size. *)
Fixpoint firstPatternSize (patterns : list (list Atom)) (text : string) : option Z :=
  match patterns with
  | [] => None
  | pattern :: rest =>
      match patternSize text pattern with
      | Some size => Some size
      | None => firstPatternSize rest text
      end
  end.

Definition soloIndicator (text : string) : bool :=
  includes text "just me" || includes text "by myself" ||
  includes text "solo" || includes text "just for me".

Definition conversationText (messages : list Message) : string :=
  let userMessages := List.filter (fun msg => Role_eqb (role msg) user) messages in
  join " " (List.map (fun msg => toLowerCase (content msg)) userMessages).

(** The body of [extractContextFromConversation], over the pattern
    table it scans. *)
Definition extractWith (patterns : list (list Atom)) (messages : list Message)
  : ConversationContext :=
  let text := conversationText messages in
  {| location := None; timeOfDay := None; weather := None;
     mood := firstKeywordMatch moodKeywords text;
     occasion := firstKeywordMatch occasionKeywords text;
     groupSize :=
       if soloIndicator text then Some 1
       else firstPatternSize patterns text |}.

Definition extractContextFromConversation (messages : list Message)
  : ConversationContext :=
  extractWith groupSizePatterns messages.

(** *** The note attached to a saved place *)

Record SearchContext : Type := {
  sc_mood : option string;
  sc_weather : option string;
  sc_timeOfDay : option string;
  sc_groupSize : option Z;
  sc_occasion : option string;
  sc_searchQuery : option string;
}.

(** [if (field) parts.push(phrase(field))] for a string field. *)
Definition pushIfString (field : option string) (phrase : string -> string)
           (parts : list string) : list string :=
  match field with
  | Some v => if truthy_string v then (parts ++ [phrase v])%list else parts
  | None => parts
  end.

Section Note.
(** The runtime's printing of an integer of magnitude above 2^53. *)
Context (Number_toString_big : Z -> string).

Definition groupPhrase (n : Z) : string :=
  if Z.eqb n 1 then "solo"
  else if Z.eqb n 2 then "for two"
  else "for a group of " +:+ numberToString Number_toString_big n.

Definition contextParts (searchContext : SearchContext) : list string :=
  let parts := [] in
  let parts := pushIfString (sc_mood searchContext)
                 (fun m => "when looking for " +:+ m +:+ " vibes") parts in
  let parts := pushIfString (sc_occasion searchContext)
                 (fun o => "for " +:+ o) parts in
  let parts :=
    match sc_groupSize searchContext with
    | Some n => if truthy_Z n then (parts ++ [groupPhrase n])%list else parts
    | None => parts
    end in
  let parts := pushIfString (sc_weather searchContext)
                 (fun w => "on a " +:+ toLowerCase w +:+ " day") parts in
  let parts := pushIfString (sc_timeOfDay searchContext)
                 (fun t => "during " +:+ t) parts in
  let parts := pushIfString (sc_searchQuery searchContext)
                 (fun q => "while searching for " +:+ quote +:+ q +:+ quote) parts in
  parts.

Definition generateContextNote (searchContext : SearchContext) (place : Place) : string :=
  let parts := contextParts searchContext in
  match parts with
  | [] => "Saved " +:+ place_name place
  | _ :: _ => "Saved " +:+ place_name place +:+ " " +:+ join ", " parts
  end.
End Note.

(** A text field the note skips: unset or empty. *)
Definition blank (field : option string) : Prop :=
  field = None \/ field = Some EmptyString.

(** The integer a pattern captures in a text: the decimal value of
    group 1 at the pattern's leftmost match. *)
Definition capturedSize (text : string) (pattern : list Atom) (n : Z) : Prop :=
  exists digits, String_match text pattern = Some (Some digits) /\
                 parseInt10 digits = Some n.

(** A pattern decides the group size when the integer it captures
    lies in (0,100]. *)
Definition decides (text : string) (pattern : list Atom) (n : Z) : Prop :=
  capturedSize text pattern n /\ 0 < n <= 100.

End ContextService.

(** A single turn of the human speaker. *)
Definition userTurn (text : string) : Message :=
  {| role := user; content := text; timestamp := 0; recommendations := None |}.

(** ** YelpService *)

Module YelpService.
Import Js.

(** *** Remote schemas *)

Record FormattedContext : Type := {
  fc_location : option Coordinates;
  fc_time_of_day : option string;
  fc_weather : option string;
  fc_group_size : option Z;
  fc_occasion : option string;
}.

Record HistoryItem : Type := { hi_role : string; hi_content : string }.

Record YelpChatRequest : Type := {
  req_message : string;
  req_context : option FormattedContext;
  req_conversation_history : list HistoryItem;
}.

Record YelpRecommendation : Type := {
  place_id : string;
  name : string;
  rating : float;
  rec_coordinates : Coordinates;
  relevance_score : float;
  rec_reasoning : option string;
  rec_address : option string;
  rec_categories : option (list string);
  rec_photos : option (list string);
  rec_phone : option string;
  rec_hours : option string;
  rec_price_range : option string;
}.

Record YelpChatResponse : Type := {
  chat_response : string;
  chat_recommendations : option (list YelpRecommendation);
}.

Record YelpCoordinates : Type := { latitude : float; longitude : float }.

Record YelpLocation : Type := {
  address1 : string;
  city : string;
  state : string;
  zip_code : string;
}.

Record YelpCategory : Type := { title : string }.

Record OpenSlot : Type := { slot_start : string; slot_end : string; slot_day : Z }.
Record YelpHours : Type := { open : list OpenSlot }.

Record YelpPlaceDetailsResponse : Type := {
  pd_id : string;
  pd_name : string;
  pd_rating : float;
  pd_coordinates : YelpCoordinates;
  pd_location : YelpLocation;
  pd_categories : list YelpCategory;
  pd_photos : option (list string);
  pd_phone : option string;
  pd_hours : option (list YelpHours);
  pd_price : option string;
}.

Record YelpBusiness : Type := {
  b_id : string;
  b_name : string;
  b_rating : float;
  b_coordinates : YelpCoordinates;
  b_location : YelpLocation;
  b_categories : list YelpCategory;
  b_image_url : string;
  b_phone : option string;
  b_price : option string;
}.

Record YelpSearchResponse : Type := { businesses : list YelpBusiness }.

Record Filters : Type := {
  f_categories : option (list string);
  f_price : option (list string);
  f_radius : option Z;
  f_limit : option Z;
}.

Record SearchParams : Type := {
  sp_term : string;
  sp_latitude : float;
  sp_longitude : float;
  sp_limit : Z;
  sp_categories : option string;
  sp_price : option string;
  sp_radius : option Z;
}.

(** *** Results and the cache *)

Record ChatResult : Type := {
  cr_response : string;
  cr_recommendations : list Recommendation;
}.

(** What the cache holds ([CacheEntry<any>]): whatever an operation
    stored.  A hit hands the stored value back under an unchecked
    cast, so operations answer with a [Value]. *)
Inductive Value : Type :=
| VChat (r : ChatResult)
| VPlace (p : Place)
| VPlaces (ps : list Place).

Record CacheEntry : Type := {
  entry_data : Value;
  entry_timestamp : Z;
}.

(** The error type surfaced to callers: a message and nothing else. *)
Record Error : Type := { message : string }.

Record AxiosInstance : Type := {
  baseURL : string;
  header_Authorization : string;
  header_Content_Type : string;
  timeout : Z;
}.

Record t : Type := {
  client : AxiosInstance;
  cache : gmap string CacheEntry;
}.

Definition CACHE_TTL : Z := 5 * 60 * 1000.

(** [apiKey || process.env.YELP_API_KEY] *)
Definition constructor (apiKey env_YELP_API_KEY : option string) : Completion Error t :=
  let key := or_string apiKey env_YELP_API_KEY in
  (* if (!key): the key is undefined, or the empty string *)
  if match key with Some k => truthy_string k | None => false end then
    Return {| client := {| baseURL := "https://api.yelp.com";
                           header_Authorization := "Bearer " +:+ default EmptyString key;
                           header_Content_Type := "application/json";
                           timeout := 10000 |};
              cache := ∅ |}
  else Throw {| message := "Yelp API key is required" |}.

(** *** Normalisation *)

Definition formatContext (context : ConversationContext) : FormattedContext :=
  {| fc_location :=
       match location context with
       | Some l => Some {| lat := loc_lat l; lng := loc_lng l |}
       | None => None
       end;
     fc_time_of_day := timeOfDay context;
     fc_weather := weather context;
     fc_group_size := groupSize context;
     fc_occasion := occasion context |}.

Definition parseRecommendations (recommendations : option (list YelpRecommendation))
  : list Recommendation :=
  match recommendations with
  | None => []
  | Some recs =>
      List.map (fun rec => {| placeId := place_id rec;
                              placeName := name rec;
                              relevanceScore := relevance_score rec;
                              reasoning := rec_reasoning rec |}) recs
  end.

Definition formatAddress (l : YelpLocation) : string :=
  address1 l +:+ ", " +:+ city l +:+ ", " +:+ state l +:+ " " +:+ zip_code l.

Definition formatHours (hours : option (list YelpHours)) : option string :=
  match hours with
  | None | Some [] => None
  | Some (_ :: _) => Some "See Yelp for hours"
  end.

Definition formatPlaceDetails (response : YelpPlaceDetailsResponse) : Place :=
  {| place_placeId := pd_id response;
     place_name := pd_name response;
     place_address := formatAddress (pd_location response);
     place_rating := pd_rating response;
     place_categories := List.map title (pd_categories response);
     place_photos := default [] (pd_photos response);
     place_coordinates :=
       {| lat := latitude (pd_coordinates response);
          lng := longitude (pd_coordinates response) |};
     place_phone := pd_phone response;
     place_hours := formatHours (pd_hours response);
     place_priceRange := pd_price response |}.

Definition formatSearchResult (business : YelpBusiness) : Place :=
  {| place_placeId := b_id business;
     place_name := b_name business;
     place_address := formatAddress (b_location business);
     place_rating := b_rating business;
     place_categories := List.map title (b_categories business);
     place_photos :=
       if truthy_string (b_image_url business) then [b_image_url business] else [];
     place_coordinates :=
       {| lat := latitude (b_coordinates business);
          lng := longitude (b_coordinates business) |};
     place_phone := b_phone business;
     place_hours := None;
     place_priceRange := b_price business |}.

Definition handleError (error : Thrown) (context : string) : Error :=
  if isAxiosError error then
    let status := responseStatus error in
    let data := responseData error in
    if bool_decide (status = Some 401) then
      {| message := "Yelp API authentication failed" |}
    else if bool_decide (status = Some 429) then
      {| message := "Yelp API rate limit exceeded" |}
    else if match status with Some st => truthy_Z st && (500 <=? st) | None => false end then
      {| message := "Yelp API server error: " +:+ context |}
    else
      match data with
      | Some {| error := Some err |} =>
          {| message := "Yelp API error: " +:+ or_else (description err) context |}
      | _ => {| message := context |}
      end
  else {| message := context |}.

(** *** The cache key *)

(** The parameter objects handed to [JSON.stringify]. *)
Inductive KeyParams : Type :=
| ChatParams (message : string) (context : option ConversationContext)
| PlaceParams (placeId : string)
| SearchKeyParams (query : string) (location : Coordinates) (filters : option Filters).

Section Client.
Context {World : Type}.
(** [Date.now()] *)
Context (Date_now : World -> Z).
(** What awaiting a timer of the given length does to the world. *)
Context (sleep : Z -> World -> World).
Context (JSON_stringify : KeyParams -> string).
(** The three remote calls, each answering with [response.data] or a
    rejection. *)
Context (client_post_chat : AxiosInstance -> string -> YelpChatRequest -> World ->
                            Completion Thrown YelpChatResponse * World).
Context (client_get_business : AxiosInstance -> string -> World ->
                               Completion Thrown YelpPlaceDetailsResponse * World).
Context (client_get_search : AxiosInstance -> string -> SearchParams -> World ->
                             Completion Thrown YelpSearchResponse * World).

Definition generateCacheKey (type : string) (params : KeyParams) : string :=
  type +:+ ":" +:+ JSON_stringify params.

Definition getFromCache (key : string) (self : t) (sys : Sys World)
  : option Value * t :=
  match cache self !! key with
  | None => (None, self)
  | Some entry =>
      let now := Date_now (world sys) in
      if CACHE_TTL <? now - entry_timestamp entry
      then (None, {| client := client self; cache := delete key (cache self) |})
      else (Some (entry_data entry), self)
  end.

Definition setCache (key : string) (data : Value) (self : t) (sys : Sys World) : t :=
  {| client := client self;
     cache := <[ key := {| entry_data := data;
                           entry_timestamp := Date_now (world sys) |} ]> (cache self) |}.

Definition clearCache (self : t) : t :=
  {| client := client self; cache := ∅ |}.

Definition doSleep (ms : Z) (sys : Sys World) : Sys World :=
  {| world := sleep ms (world sys); log := log sys ++ [EvSleep ms] |}.

(** [error.response?.status && error.response.status < 500] under
    [axios.isAxiosError(error)] *)
Definition isClientError (error : Thrown) : bool :=
  isAxiosError error &&
  match responseStatus error with
  | Some st => truthy_Z st && (st <? 500)
  | None => false
  end.

(** The [for] loop of [retryRequest], from iteration [attempt] on;
    [remaining] is the number of iterations left,
    [maxRetries - attempt]. *)
Fixpoint retryLoop {T : Type} (requestFn : World -> Completion Thrown T * World)
         (maxRetries : Z) (remaining : nat) (attempt : Z) (lastError : Thrown)
         (sys : Sys World) : Completion Thrown T * Sys World :=
  match remaining with
  | O => (Throw lastError, sys)
  | S remaining' =>
      let '(r, w') := requestFn (world sys) in
      let sys1 := {| world := w'; log := log sys ++ [EvRequest] |} in
      match r with
      | Return response_data => (Return response_data, sys1)
      | Throw error =>
          if isClientError error then (Throw error, sys1)
          else
            let sys2 :=
              if attempt <? maxRetries - 1
              then doSleep (2 ^ attempt * 1000) sys1
              else sys1 in
            retryLoop requestFn maxRetries remaining' (attempt + 1) error sys2
      end
  end.

Definition retryRequest {T : Type} (requestFn : World -> Completion Thrown T * World)
           (maxRetries : Z) (sys : Sys World) : Completion Thrown T * Sys World :=
  retryLoop requestFn maxRetries (Z.to_nat maxRetries) 0 ThrownNull sys.

Definition roleName (r : Role) : string :=
  match r with user => "user" | assistant => "assistant" end.

(** The [request] object of [sendChatMessage]. *)
Definition chatRequest (message : string) (conversationHistory : list Message)
           (context : option ConversationContext) : YelpChatRequest :=
  {| req_message := message;
     req_context := formatContext <$> context;
     req_conversation_history :=
       List.map (fun msg => {| hi_role := roleName (role msg);
                               hi_content := content msg |})
                conversationHistory |}.

Definition sendChatMessage (message : string) (conversationHistory : list Message)
           (context : option ConversationContext) (self : t) (sys : Sys World)
  : Completion Error Value * t * Sys World :=
  let cacheKey := generateCacheKey "chat" (ChatParams message context) in
  match getFromCache cacheKey self sys with
  | (Some cached, self1) => (Return cached, self1, sys)
  | (None, self1) =>
      let request := chatRequest message conversationHistory context in
      match retryRequest (client_post_chat (client self1) "/v2/ai/chat" request) 3 sys with
      | (Return response, sys') =>
          let result :=
            VChat {| cr_response := chat_response response;
                     cr_recommendations :=
                       parseRecommendations
                         (Some (default [] (chat_recommendations response))) |} in
          (Return result, setCache cacheKey result self1 sys', sys')
      | (Throw error, sys') =>
          (Throw (handleError error "Failed to send chat message"), self1, sys')
      end
  end.

Definition getPlaceDetails (placeId : string) (self : t) (sys : Sys World)
  : Completion Error Value * t * Sys World :=
  let cacheKey := generateCacheKey "place" (PlaceParams placeId) in
  match getFromCache cacheKey self sys with
  | (Some cached, self1) => (Return cached, self1, sys)
  | (None, self1) =>
      match retryRequest
              (client_get_business (client self1) ("/v3/businesses/" +:+ placeId)) 3 sys with
      | (Return response, sys') =>
          let place := VPlace (formatPlaceDetails response) in
          (Return place, setCache cacheKey place self1 sys', sys')
      | (Throw error, sys') =>
          (Throw (handleError error ("Failed to get place details for " +:+ placeId)),
           self1, sys')
      end
  end.

Definition nonEmptyJoined (l : option (list string)) : option string :=
  match l with
  | Some (x :: rest) => Some (join "," (x :: rest))
  | _ => None
  end.

Definition searchParams (query : string) (location : Coordinates)
           (filters : option Filters) : SearchParams :=
  {| sp_term := query;
     sp_latitude := lat location;
     sp_longitude := lng location;
     sp_limit :=
       match filters ≫= f_limit with
       | Some n => if truthy_Z n then n else 20
       | None => 20
       end;
     sp_categories := nonEmptyJoined (filters ≫= f_categories);
     sp_price := nonEmptyJoined (filters ≫= f_price);
     sp_radius :=
       match filters ≫= f_radius with
       | Some r => if truthy_Z r then Some r else None
       | None => None
       end |}.

Definition searchPlaces (query : string) (location : Coordinates)
           (filters : option Filters) (self : t) (sys : Sys World)
  : Completion Error Value * t * Sys World :=
  let cacheKey := generateCacheKey "search" (SearchKeyParams query location filters) in
  match getFromCache cacheKey self sys with
  | (Some cached, self1) => (Return cached, self1, sys)
  | (None, self1) =>
      let params := searchParams query location filters in
      match retryRequest
              (client_get_search (client self1) "/v3/businesses/search" params) 3 sys with
      | (Return response, sys') =>
          let places := VPlaces (List.map formatSearchResult (businesses response)) in
          (Return places, setCache cacheKey places self1 sys', sys')
      | (Throw error, sys') =>
          (Throw (handleError error "Failed to search places"), self1, sys')
      end
  end.

(** *** Vocabulary of the properties *)

(** The shape the three operations share: look the key up, answer
    from the cache on a hit, otherwise run the request under the
    retry loop, normalise and store the answer, or normalise the
    failure. *)
Definition cachedCall {T : Type} (cacheKey : string)
           (requestFn : AxiosInstance -> World -> Completion Thrown T * World)
           (normalise : T -> Value) (context : string)
           (self : t) (sys : Sys World) : Completion Error Value * t * Sys World :=
  match getFromCache cacheKey self sys with
  | (Some cached, self1) => (Return cached, self1, sys)
  | (None, self1) =>
      match retryRequest (requestFn (client self1)) 3 sys with
      | (Return response, sys') =>
          (Return (normalise response),
           setCache cacheKey (normalise response) self1 sys', sys')
      | (Throw error, sys') => (Throw (handleError error context), self1, sys')
      end
  end.

(** The caching contract of an operation [op] whose key is [key]:
    - an entry at most [CACHE_TTL] old is answered from the cache,
      leaving cache, world and log as they were (no request);
    - an absent entry, or one older than [CACHE_TTL], makes the
      operation send a request (one call under the retry policy: at
      least one and at most three attempts), and on success the entry
      is replaced by the answer stamped with the clock read after the
      request;
    - after a successful call the key holds its answer, and any call
      made while that entry is at most [CACHE_TTL] old gives the same
      answer without a request. *)
Definition cacheDiscipline (key : string)
           (op : t -> Sys World -> Completion Error Value * t * Sys World) : Prop :=
  (forall self sys entry,
      cache self !! key = Some entry ->
      Date_now (world sys) - entry_timestamp entry <= CACHE_TTL ->
      op self sys = (Return (entry_data entry), self, sys))
  /\
  (forall self sys,
      (cache self !! key = None \/
       exists entry, cache self !! key = Some entry /\
                     CACHE_TTL < Date_now (world sys) - entry_timestamp entry) ->
      exists r self' sys' rest,
        op self sys = (r, self', sys') /\
        log sys' = (log sys ++ EvRequest :: rest)%list /\
        (requests (EvRequest :: rest) <= 3)%nat /\
        forall v, r = Return v ->
                  cache self' !! key
                  = Some {| entry_data := v;
                            entry_timestamp := Date_now (world sys') |})
  /\
  (forall self sys v self' sys',
      op self sys = (Return v, self', sys') ->
      exists entry,
        cache self' !! key = Some entry /\ entry_data entry = v /\
        forall sys2,
          Date_now (world sys2) - entry_timestamp entry <= CACHE_TTL ->
          op self' sys2 = (Return v, self', sys2)).

(** A failure the retry loop tries again: one without a status
    (timeout, transport failure, a thrown value that is no HTTP
    failure) or with a status of 500 or more. *)
Definition retryable (e : Thrown) : Prop :=
  responseStatus e = None \/ exists st, responseStatus e = Some st /\ 500 <= st.

(** A failure carrying an HTTP status below 500. *)
Definition carriesClientStatus (e : Thrown) : Prop :=
  exists msg r, e = AxiosError msg (Some r) /\ status r <> 0 /\ status r < 500.

End Client.

(** *** Vocabulary of the cache invariant and of the retry trace *)

(** The three kinds of value the operations store, and the prefix each
    operation gives its keys. *)
Inductive Kind : Type := KChat | KPlace | KSearch.

Definition kindPrefix (k : Kind) : string :=
  match k with
  | KChat => "chat:"
  | KPlace => "place:"
  | KSearch => "search:"
  end.

Definition kindOfValue (v : Value) : Kind :=
  match v with
  | VChat _ => KChat
  | VPlace _ => KPlace
  | VPlaces _ => KSearch
  end.

(** A cache is well typed when the value under a key that starts with
    an operation's prefix is of that operation's kind. *)
Definition wellTyped (c : gmap string CacheEntry) : Prop :=
  forall key entry k,
    c !! key = Some entry ->
    String.prefix (kindPrefix k) key = true ->
    kindOfValue (entry_data entry) = k.

(** An operation of the client, once its parameters are given. *)
Definition Operation (World : Type) : Type :=
  t -> Sys World -> Completion Error Value * t * Sys World.

(** The call sends a request before it logs anything else. *)
Definition sendsRequest {World : Type} (op : Operation World)
           (self : t) (sys : Sys World) : Prop :=
  exists r self' sys' rest,
    op self sys = (r, self', sys') /\ log sys' = (log sys ++ EvRequest :: rest)%list.

(** [P] holds of each of the three operations, for all parameters,
    together with the cache key the operation computes from them. *)
Definition forEachOperation {World : Type}
           (Date_now : World -> Z) (sleep : Z -> World -> World)
           (JSON_stringify : KeyParams -> string)
           (client_post_chat : AxiosInstance -> string -> YelpChatRequest -> World ->
                               Completion Thrown YelpChatResponse * World)
           (client_get_business : AxiosInstance -> string -> World ->
                                  Completion Thrown YelpPlaceDetailsResponse * World)
           (client_get_search : AxiosInstance -> string -> SearchParams -> World ->
                                Completion Thrown YelpSearchResponse * World)
           (P : string -> Operation World -> Prop) : Prop :=
  (forall message conversationHistory context,
      P (generateCacheKey JSON_stringify "chat" (ChatParams message context))
        (sendChatMessage Date_now sleep JSON_stringify client_post_chat
                         message conversationHistory context))
  /\
  (forall placeId,
      P (generateCacheKey JSON_stringify "place" (PlaceParams placeId))
        (getPlaceDetails Date_now sleep JSON_stringify client_get_business placeId))
  /\
  (forall query location filters,
      P (generateCacheKey JSON_stringify "search" (SearchKeyParams query location filters))
        (searchPlaces Date_now sleep JSON_stringify client_get_search
                      query location filters)).

(** The trace of [n] failed attempts that start at iteration [attempt]:
    a request, then, between two requests, a sleep of
    [2 ^ attempt * 1000] ms that doubles each time. *)
Fixpoint backoffTrace (n : nat) (attempt : Z) : list Event :=
  match n with
  | O => []
  | S O => [EvRequest]
  | S n' => EvRequest :: EvSleep (2 ^ attempt * 1000) :: backoffTrace n' (attempt + 1)
  end.

(** The time a trace spends asleep, in milliseconds. *)
Fixpoint sleepTotal (l : list Event) : Z :=
  match l with
  | [] => 0
  | EvSleep ms :: rest => ms + sleepTotal rest
  | _ :: rest => sleepTotal rest
  end.

End YelpService.

(** ** Express middleware: authentication and error replies *)

Module Middleware.
Import Js.

(** The JSON body every error reply carries; [body_stack] is the
    optional [stack] key. *)
Record ErrorBody : Type := {
  body_error : string;
  body_message : string;
  body_statusCode : Z;
  body_stack : option string;
}.

Record Response : Type := {
  res_status : Z;
  res_json : ErrorBody;
}.

(** What a handler does to the outside: a reply, a call of [next], a
    line on the error console. *)
Inductive Effect : Type :=
| Reply (r : Response)
| Next
| ConsoleError.

Definition replies (l : list Effect) : list Response :=
  omap (fun e => match e with Reply r => Some r | _ => None end) l.

Definition nextCalls (l : list Effect) : nat :=
  List.length (List.filter (fun e => match e with Next => true | _ => false end) l).

(** *** errorHandler *)

Record ApiError : Type := {
  err_name : string;
  err_message : string;
  err_statusCode : option Z;
  err_stack : option string;
}.

Definition errorHandler (env_NODE_ENV : option string) (err : ApiError) : list Effect :=
  let statusCode :=
    match err_statusCode err with
    | Some c => if truthy_Z c then c else 500
    | None => 500
    end in
  let message := or_else (Some (err_message err)) "Internal Server Error" in
  let logged := if 500 <=? statusCode then [ConsoleError] else [] in
  (logged ++
   [Reply {| res_status := statusCode;
             res_json :=
               {| body_error :=
                    if 500 <=? statusCode then "Internal Server Error"
                    else or_else (Some (err_name err)) "Error";
                  body_message := message;
                  body_statusCode := statusCode;
                  body_stack :=
                    if bool_decide (env_NODE_ENV = Some "development")
                    then err_stack err else None |} |}])%list.

Definition notFoundHandler : list Effect :=
  [Reply {| res_status := 404;
            res_json := {| body_error := "Not Found";
                           body_message := "The requested resource was not found";
                           body_statusCode := 404;
                           body_stack := None |} |}].

(** *** requireAuth and optionalAuth *)

Record AuthInfo : Type := { userId : string; sessionId : string }.

Record AuthRequest : Type := {
  authorization : option string;
  auth : option AuthInfo;
}.

(** A session as the identity provider returns it. *)
Record ClerkSession : Type := { session_userId : string; session_id : string }.

Definition unauthorized (message : string) : Effect :=
  Reply {| res_status := 401;
           res_json := {| body_error := "Unauthorized";
                          body_message := message;
                          body_statusCode := 401;
                          body_stack := None |} |}.

(** [authHeader && authHeader.startsWith('Bearer ')] *)
Definition bearer (authHeader : option string) : option string :=
  match authHeader with
  | Some h => if truthy_string h && startsWith h "Bearer "
              then Some (substringFrom 7 h) else None
  | None => None
  end.

Section Auth.
Context {World : Type}.
(** [clerkClient.sessions.verifySession(sessionId, token)]: a session,
    [null], or a rejection. *)
Context (verifySession : string -> string -> World ->
                         Completion Thrown (option ClerkSession) * World).

Definition requireAuth (req : AuthRequest) (w : World)
  : AuthRequest * list Effect * World :=
  match bearer (authorization req) with
  | None => (req, [unauthorized "Missing or invalid authorization header"], w)
  | Some token =>
      match verifySession token token w with
      | (Return None, w') =>
          (req, [unauthorized "Invalid or expired session token"], w')
      | (Return (Some session), w') =>
          ({| authorization := authorization req;
              auth := Some {| userId := session_userId session;
                              sessionId := session_id session |} |},
           [Next], w')
      | (Throw _, w') =>
          (req, [ConsoleError; unauthorized "Authentication failed"], w')
      end
  end.

Definition optionalAuth (req : AuthRequest) (w : World)
  : AuthRequest * list Effect * World :=
  match bearer (authorization req) with
  | None => (req, [Next], w)
  | Some token =>
      match verifySession token token w with
      | (Return (Some session), w') =>
          ({| authorization := authorization req;
              auth := Some {| userId := session_userId session;
                              sessionId := session_id session |} |},
           [Next], w')
      | (Return None, w') => (req, [Next], w')
      | (Throw _, w') => (req, [Next], w')
      end
  end.
End Auth.

End Middleware.

(** ** The chat input of the front end *)

Module ChatInterface.
Import Js.

(** The component's state, and the calls it made of [onSendMessage]
    and of [preventDefault]. *)
Record State : Type := {
  inputValue : string;
  sent : list string;
  prevented : nat;
}.

Definition handleSend (st : State) : State :=
  if truthy_string (trim (inputValue st))
  then {| inputValue := EmptyString;
          sent := sent st ++ [trim (inputValue st)];
          prevented := prevented st |}
  else st.

Definition handleKeyPress (key : string) (shiftKey : bool) (st : State) : State :=
  if String.eqb key "Enter" && negb shiftKey
  then handleSend {| inputValue := inputValue st; sent := sent st;
                     prevented := S (prevented st) |}
  else st.

(** The [disabled] attribute of the send button. *)
Definition sendDisabled (disabled : bool) (value : string) : bool :=
  disabled || negb (truthy_string (trim value)).

End ChatInterface.

(** ** A scripted world for examples

    The world is a clock in milliseconds and the replies the remote side
    will give, in order; a request takes 120 ms and consumes one reply. *)

Module Demo.
Import YelpService.

Record World (T : Type) : Type := {
  now : Z;
  replies : list (Completion Thrown T);
}.
Arguments now {T} _.
Arguments replies {T} _.

Definition Date_now {T : Type} (w : World T) : Z := now w.

Definition sleep {T : Type} (ms : Z) (w : World T) : World T :=
  {| now := now w + ms; replies := replies w |}.

Definition timeoutError : Thrown := AxiosError "timeout of 10000ms exceeded" None.

Definition httpError (st : Z) : Thrown :=
  AxiosError "Request failed" (Some {| status := st; data := None |}).

(** A request answers with the next scripted reply, and times out when
    the script is exhausted. *)
Definition request {T : Type} (w : World T) : Completion Thrown T * World T :=
  match replies w with
  | r :: rest => (r, {| now := now w + 120; replies := rest |})
  | [] => (Throw timeoutError, {| now := now w + 10000; replies := [] |})
  end.

(** A stand-in for [JSON.stringify] on the key parameters. *)
Definition stringify (p : KeyParams) : string :=
  match p with
  | ChatParams message _ => "{message:" +:+ message +:+ "}"
  | PlaceParams placeId => "{placeId:" +:+ placeId +:+ "}"
  | SearchKeyParams query _ _ => "{query:" +:+ query +:+ "}"
  end.

Definition service : t :=
  {| client := {| baseURL := "https://api.yelp.com";
                  header_Authorization := "Bearer k";
                  header_Content_Type := "application/json";
                  timeout := 10000 |};
     cache := ∅ |}.

Definition start {T : Type} (script : list (Completion Thrown T)) : Sys (World T) :=
  {| world := {| now := 0; replies := script |}; log := [] |}.

Definition sampleRecommendation : YelpRecommendation :=
  {| place_id := "p1"; name := "Chez Nous"; rating := 4.5%float;
     rec_coordinates := {| lat := 37.5%float; lng := (-122.25)%float |};
     relevance_score := 0.75%float;
     rec_reasoning := Some "quiet corner tables"; rec_address := None;
     rec_categories := None; rec_photos := None; rec_phone := None;
     rec_hours := None; rec_price_range := None |}.

Definition sampleLocation : YelpLocation :=
  {| address1 := "1 Main St"; city := "Springfield"; state := "IL";
     zip_code := "62701" |}.

Definition sampleDetails (latitude longitude : float) : YelpPlaceDetailsResponse :=
  {| pd_id := "p1"; pd_name := "Chez Nous"; pd_rating := 4.5%float;
     pd_coordinates := {| latitude := latitude; longitude := longitude |};
     pd_location := sampleLocation; pd_categories := [ {| title := "French" |} ];
     pd_photos := None; pd_phone := None; pd_hours := None; pd_price := None |}.

Definition sampleBusiness (latitude longitude : float) : YelpBusiness :=
  {| b_id := "p1"; b_name := "Chez Nous"; b_rating := 4.5%float;
     b_coordinates := {| latitude := latitude; longitude := longitude |};
     b_location := sampleLocation; b_categories := [ {| title := "French" |} ];
     b_image_url := EmptyString; b_phone := None; b_price := None |}.

Definition chatReply (recs : option (list YelpRecommendation)) : YelpChatResponse :=
  {| chat_response := "Here are some ideas"; chat_recommendations := recs |}.

Definition post_chat (c : AxiosInstance) (url : string) (body : YelpChatRequest)
  : World YelpChatResponse -> Completion Thrown YelpChatResponse * World YelpChatResponse :=
  request.

Definition get_business (c : AxiosInstance) (url : string)
  : World YelpChatResponse ->
    Completion Thrown YelpPlaceDetailsResponse * World YelpChatResponse :=
  fun w => (Throw timeoutError, w).

Definition get_search (c : AxiosInstance) (url : string) (params : SearchParams)
  : World YelpChatResponse ->
    Completion Thrown YelpSearchResponse * World YelpChatResponse :=
  fun w => (Throw timeoutError, w).

(** [sendChatMessage("table for two")] in the scripted world. *)
Definition sendChat :=
  sendChatMessage Date_now sleep stringify post_chat "table for two" [] None.

Definition chatKey : string :=
  generateCacheKey stringify "chat" (ChatParams "table for two" None).

(** The service after a first call answered at once, at time 0. *)
Definition warmService : t :=
  snd (fst (sendChat service (start [Return (chatReply None)]))).

(** The world at a later time, nothing logged, the remote side ready
    with one more answer. *)
Definition later (time : Z) : Sys (World YelpChatResponse) :=
  {| world := {| now := time; replies := [Return (chatReply (Some [sampleRecommendation]))] |};
     log := [] |}.

(** A Friday evening, and a weather endpoint that times out. *)
Definition fridayEvening : Date :=
  {| epochMs := 1767380400000; getHours := 19; weekdayLong := "Friday" |}.

Definition clock (w : unit) : Date := fridayEvening.

Definition weatherDown (c : ContextService.AxiosInstance) (url : string)
           (params : ContextService.WeatherParams) (w : unit)
  : Completion Thrown ContextService.OpenWeatherResponse * unit :=
  (Throw (AxiosError "timeout of 5000ms exceeded" None), w).

(** A weather endpoint that answers with two entries. *)
Definition weatherUp (c : ContextService.AxiosInstance) (url : string)
           (params : ContextService.WeatherParams) (w : unit)
  : Completion Thrown ContextService.OpenWeatherResponse * unit :=
  (Return {| ContextService.ow_weather :=
               [ {| ContextService.we_main := "Rain";
                    ContextService.we_description := "light rain" |};
                 {| ContextService.we_main := "Mist";
                    ContextService.we_description := "mist" |} ];
             ContextService.ow_main := {| ContextService.temp := 54.5%float |} |}, w).

Definition sanFrancisco : LocationContext :=
  {| lc_lat := 37.75%float; lc_lng := (-122.5)%float;
     lc_name := Some "San Francisco" |}.

Definition idle : Sys unit := {| world := tt; log := [] |}.

(** An identity provider that knows one token. *)
Definition verify (sessionId token : string) (w : unit)
  : Completion Thrown (option Middleware.ClerkSession) * unit :=
  if String.eqb token "tok_abc"
  then (Return (Some {| Middleware.session_userId := "user_1";
                        Middleware.session_id := "sess_1" |}), w)
  else (Throw (PlainError "Unauthenticated"), w).

(** The search endpoint in the scripted world. *)
Definition get_places (c : AxiosInstance) (url : string) (params : SearchParams)
  : World YelpSearchResponse ->
    Completion Thrown YelpSearchResponse * World YelpSearchResponse :=
  request.

Definition twoContexts : ConversationContext * ConversationContext :=
  ({| location := Some {| loc_lat := 37.75%float; loc_lng := (-122.5)%float;
                          loc_name := "San Francisco" |};
      timeOfDay := Some "evening"; weather := None; groupSize := Some 2;
      occasion := Some "date night"; mood := Some "romantic" |},
   {| location := Some {| loc_lat := 37.75%float; loc_lng := (-122.5)%float;
                          loc_name := "SF" |};
      timeOfDay := Some "evening"; weather := None; groupSize := Some 2;
      occasion := Some "date night"; mood := Some "energetic" |}).

End Demo.

(** * Properties *)

(** ** Context extraction *)

Module ContextFacts.
Import Js Regex ContextService.

Lemma patternSize_Some text pattern n :
  patternSize text pattern = Some n <-> decides text pattern n.
Proof.
  unfold patternSize, decides, capturedSize. split.
  - destruct (String_match text pattern) as [[digits|]|] eqn:Hm; try discriminate.
    destruct (truthy_string digits); try discriminate.
    destruct (parseInt10 digits) as [size|] eqn:Hp; try discriminate.
    destruct ((0 <? size) && (size <=? 100)) eqn:Hr; try discriminate.
    intros [= <-]. apply andb_prop in Hr as [H0 H100].
    split; [exists digits; auto | lia].
  - intros [(digits & -> & Hp) Hr].
    destruct digits as [|c digits]; [discriminate Hp|].
    cbn [truthy_string]. rewrite Hp.
    replace ((0 <? n) && (n <=? 100)) with true; [reflexivity|].
    symmetry. apply andb_true_intro. split; lia.
Qed.

Lemma patternSize_None text pattern :
  patternSize text pattern = None <-> ~ exists n, decides text pattern n.
Proof.
  split.
  - intros H [n Hn]. apply patternSize_Some in Hn. congruence.
  - intros H. destruct (patternSize text pattern) as [n|] eqn:E; [|reflexivity].
    exfalso. apply H. exists n. now apply patternSize_Some.
Qed.

(** The loop stops at the first pattern that decides. *)
Lemma firstPatternSize_first text before pattern after n :
  (forall q, In q before -> ~ exists m, decides text q m) ->
  decides text pattern n ->
  firstPatternSize (before ++ pattern :: after) text = Some n.
Proof.
  intros Hbefore Hp. induction before as [|q before IH]; cbn [app firstPatternSize].
  - apply patternSize_Some in Hp. now rewrite Hp.
  - assert (Hq : patternSize text q = None)
      by (apply patternSize_None, Hbefore; now left).
    rewrite Hq. apply IH. intros q' Hin. apply Hbefore. now right.
Qed.

Lemma firstPatternSize_none text patterns :
  (forall q, In q patterns -> ~ exists m, decides text q m) ->
  firstPatternSize patterns text = None.
Proof.
  induction patterns as [|q patterns IH]; intros H; cbn [firstPatternSize].
  - reflexivity.
  - assert (Hq : patternSize text q = None) by (apply patternSize_None, H; now left).
    rewrite Hq. apply IH. intros q' Hin. apply H. now right.
Qed.

(** C1 (as stated, refuted): the first two example turns do not give
    the contexts the claim lists.  The turn about a romantic dinner
    also sets the occasion, because "romantic dinner" is a keyword of
    "date night"; the turn about a group of 8 also sets the occasion,
    because "group" is a keyword of "group hangout". *)
Lemma C1_examples_as_stated_fail :
  ~ (extractContextFromConversation
       [userTurn "Looking for a romantic dinner for 2 people"]
     = {| location := None; timeOfDay := None; weather := None;
          groupSize := Some 2; occasion := None; mood := Some "romantic" |}
     /\ extractContextFromConversation [userTurn "Need a place for a group of 8"]
        = {| location := None; timeOfDay := None; weather := None;
             groupSize := Some 8; occasion := None; mood := None |}
     /\ extractContextFromConversation [userTurn "Hello"] = emptyContext).
Proof.
  intros [H _]. apply (f_equal occasion) in H. vm_compute in H. discriminate H.
Qed.

(** C1 (amended): "Looking for a romantic dinner for 2 people" yields
    mood "romantic", occasion "date night" and group size 2; "Need a
    place for a group of 8" yields occasion "group hangout" and group
    size 8 and no mood; "Hello" yields the empty context. *)
Theorem C1_examples :
  extractContextFromConversation
    [userTurn "Looking for a romantic dinner for 2 people"]
  = {| location := None; timeOfDay := None; weather := None;
       groupSize := Some 2; occasion := Some "date night"; mood := Some "romantic" |}
  /\ extractContextFromConversation [userTurn "Need a place for a group of 8"]
     = {| location := None; timeOfDay := None; weather := None;
          groupSize := Some 8; occasion := Some "group hangout"; mood := None |}
  /\ extractContextFromConversation [userTurn "Hello"] = emptyContext.
Proof. repeat split; vm_compute; reflexivity. Qed.

(** C7: when the lower-cased user text contains one of the solo
    phrases, the group size is 1 whatever the pattern table holds (the
    patterns are not consulted); otherwise the group size is the
    integer of the first pattern of the table, in order, that captures
    an integer in (0,100], and is unset when no pattern does. *)
Theorem C7_solo_then_first_pattern (messages : list Message) :
  let text := conversationText messages in
  ((includes text "just me" = true \/ includes text "by myself" = true \/
    includes text "solo" = true \/ includes text "just for me" = true) ->
   forall patterns, groupSize (extractWith patterns messages) = Some 1)
  /\
  (includes text "just me" = false -> includes text "by myself" = false ->
   includes text "solo" = false -> includes text "just for me" = false ->
   (forall before pattern after n,
       groupSizePatterns = (before ++ pattern :: after)%list ->
       (forall q, In q before -> ~ exists m, decides text q m) ->
       decides text pattern n ->
       groupSize (extractContextFromConversation messages) = Some n)
   /\
   ((forall q, In q groupSizePatterns -> ~ exists m, decides text q m) ->
    groupSize (extractContextFromConversation messages) = None)).
Proof.
  intros text. split.
  - intros Hsolo patterns. unfold extractWith. cbn [groupSize]. fold text.
    replace (soloIndicator text) with true; [reflexivity|].
    unfold soloIndicator.
    destruct Hsolo as [-> | [-> | [-> | ->]]];
      rewrite ?orb_true_r; reflexivity.
  - intros H1 H2 H3 H4.
    assert (Hsolo : soloIndicator text = false)
      by (unfold soloIndicator; now rewrite H1, H2, H3, H4).
    unfold extractContextFromConversation, extractWith. cbn [groupSize]. fold text.
    rewrite Hsolo. split.
    + intros before pattern after n -> Hbefore Hp.
      now apply firstPatternSize_first.
    + apply firstPatternSize_none.
Qed.

(** A solo phrase wins over "4 people" in the same text; without it,
    "0 people" is passed over and "party of 7" decides. *)
Lemma C7_solo_then_first_pattern_witness :
  groupSize (extractWith groupSizePatterns
               [userTurn "Just me, though the table seats 4 people"]) = Some 1
  /\ groupSize (extractContextFromConversation
                  [userTurn "0 people or 5 people, party of 7"]) = Some 7
  /\ groupSize (extractContextFromConversation
                  [userTurn ("A table for" +:+ noBreakSpace +:+ "4")]) = Some 4.
Proof.
  split; [|split].
  - apply (proj1 (C7_solo_then_first_pattern
                    [userTurn "Just me, though the table seats 4 people"])).
    left. vm_compute. reflexivity.
  - refine (proj1 (proj2 (C7_solo_then_first_pattern
                            [userTurn "0 people or 5 people, party of 7"])
                     _ _ _ _)
              [ [WordBoundary; DigitsGroup; Spaces; Literal "people"; WordBoundary];
                [WordBoundary; Literal "group"; Spaces; Literal "of"; Spaces;
                 DigitsGroup; WordBoundary] ]
              _ _ 7 eq_refl _ _); try (vm_compute; reflexivity).
    + intros q [<- | [<- | []]] [m Hm]; apply patternSize_Some in Hm;
        vm_compute in Hm; discriminate Hm.
    + apply patternSize_Some. vm_compute. reflexivity.
  - refine (proj1 (proj2 (C7_solo_then_first_pattern
                            [userTurn ("A table for" +:+ noBreakSpace +:+ "4")])
                     _ _ _ _)
              [ [WordBoundary; DigitsGroup; Spaces; Literal "people"; WordBoundary];
                [WordBoundary; Literal "group"; Spaces; Literal "of"; Spaces;
                 DigitsGroup; WordBoundary];
                [WordBoundary; Literal "party"; Spaces; Literal "of"; Spaces;
                 DigitsGroup; WordBoundary];
                [WordBoundary; DigitsGroup; Spaces; Literal "of"; Spaces;
                 Literal "us"; WordBoundary] ]
              _ _ 4 eq_refl _ _); try (vm_compute; reflexivity).
    + intros q [<- | [<- | [<- | [<- | []]]]] [m Hm]; apply patternSize_Some in Hm;
        vm_compute in Hm; discriminate Hm.
    + apply patternSize_Some. vm_compute. reflexivity.
Defined.

(** C8: the time of day is morning for hours in [5,12), afternoon in
    [12,17), evening in [17,21), and night for every other hour. *)
Theorem C8_time_of_day (now : Date) :
  let h := getHours now in
  (5 <= h < 12 -> tc_timeOfDay (getTimeContext now) = morning) /\
  (12 <= h < 17 -> tc_timeOfDay (getTimeContext now) = afternoon) /\
  (17 <= h < 21 -> tc_timeOfDay (getTimeContext now) = evening) /\
  (h < 5 \/ 21 <= h -> tc_timeOfDay (getTimeContext now) = night).
Proof.
  intros h. unfold getTimeContext. cbn [tc_timeOfDay]. fold h.
  repeat split; intros Hh;
    destruct (Z.leb_spec 5 h), (Z.ltb_spec h 12), (Z.leb_spec 12 h),
             (Z.ltb_spec h 17), (Z.leb_spec 17 h), (Z.ltb_spec h 21);
    cbn; try reflexivity; lia.
Qed.

(** The four bands partition the hours of a day. *)
Lemma time_of_day_of_each_hour :
  List.map (fun h => tc_timeOfDay
                       (getTimeContext {| epochMs := 0; getHours := h; weekdayLong := "Monday" |}))
           [0; 4; 5; 11; 12; 16; 17; 20; 21; 23]
  = [night; night; morning; morning; afternoon; afternoon; evening; evening; night; night].
Proof. reflexivity. Qed.

Section Weather.
Context {World : Type}.
Context (clock : World -> Date).
Context (weather_get : ContextService.AxiosInstance -> string -> WeatherParams -> World ->
                       Completion Thrown OpenWeatherResponse * World).

(** C9: with no weather key configured (no argument and no
    environment value, an empty string counting as none) the context
    is returned with the weather unset and nothing is requested;
    with a key, a failing weather request still gives a returned
    context, with the weather unset; and in no case does
    [getCurrentContext] throw. *)
Theorem C9_weather_never_propagates (location : LocationContext) (sys : Sys World) :
  (forall keyArg keyEnv,
      (keyArg = None \/ keyArg = Some EmptyString) ->
      (keyEnv = None \/ keyEnv = Some EmptyString) ->
      getCurrentContext clock weather_get (constructor keyArg keyEnv) location sys
      = (Return {| cc_time := getTimeContext (clock (world sys));
                   cc_weather := None;
                   cc_location := location |}, sys))
  /\
  (forall self client key failure w',
      weatherClient self = Some client -> weatherApiKey self = Some key ->
      weather_get client "/weather"
                  {| wp_lat := lc_lat location; wp_lon := lc_lng location;
                     appid := key; units := "imperial" |} (world sys)
      = (Throw failure, w') ->
      exists sys',
        getCurrentContext clock weather_get self location sys
        = (Return {| cc_time := getTimeContext (clock (world sys));
                     cc_weather := None;
                     cc_location := location |}, sys'))
  /\
  (forall self, exists context sys',
        getCurrentContext clock weather_get self location sys = (Return context, sys')).
Proof.
  split; [|split].
  - intros keyArg keyEnv [-> | ->] [-> | ->]; reflexivity.
  - intros self client key failure w' Hc Hk Hget.
    unfold getCurrentContext, getWeatherWithFallback. rewrite Hc, Hk.
    destruct (truthy_string key); [|eexists; reflexivity].
    rewrite Hget. eexists; reflexivity.
  - intros self. unfold getCurrentContext.
    destruct (getWeatherWithFallback weather_get self location sys) as [w sys'].
    eexists _, _; reflexivity.
Qed.
End Weather.

Lemma C8_time_of_day_witness :
  tc_timeOfDay (getTimeContext Demo.fridayEvening) = evening
  /\ tc_timeOfDay (getTimeContext {| epochMs := 0; getHours := 23; weekdayLong := "Monday" |})
     = night.
Proof.
  split.
  - apply (proj1 (proj2 (proj2 (C8_time_of_day Demo.fridayEvening)))).
    cbn. lia.
  - apply (proj2 (proj2 (proj2 (C8_time_of_day
                                  {| epochMs := 0; getHours := 23;
                                     weekdayLong := "Monday" |})))).
    right. cbn. lia.
Defined.

(** Without a key nothing is requested; with a key and the endpoint
    down, the context still comes back, without weather. *)
Lemma C9_weather_never_propagates_witness :
  getCurrentContext Demo.clock Demo.weatherDown (constructor None (Some EmptyString))
                    Demo.sanFrancisco Demo.idle
  = (Return {| cc_time := getTimeContext Demo.fridayEvening;
               cc_weather := None;
               cc_location := Demo.sanFrancisco |}, Demo.idle)
  /\
  exists sys',
    getCurrentContext Demo.clock Demo.weatherDown (constructor (Some "owm-key") None)
                      Demo.sanFrancisco Demo.idle
    = (Return {| cc_time := getTimeContext Demo.fridayEvening;
                 cc_weather := None;
                 cc_location := Demo.sanFrancisco |}, sys').
Proof.
  split.
  - apply (proj1 (C9_weather_never_propagates Demo.clock Demo.weatherDown
                    Demo.sanFrancisco Demo.idle)); [left | right]; reflexivity.
  - eapply (proj1 (proj2 (C9_weather_never_propagates Demo.clock Demo.weatherDown
                            Demo.sanFrancisco Demo.idle))
              (constructor (Some "owm-key") None)); reflexivity.
Defined.

End ContextFacts.

(** ** The Yelp client *)

Module YelpFacts.
Import Js YelpService.

(** *** Construction, coordinates, errors *)

(** C10: with no key argument and no environment value (an empty
    string counting as none, in either place) the constructor throws
    "Yelp API key is required"; with a key present it returns a
    service whose cache is empty and whose client is configured: base
    URL of the remote service, the key as bearer token (the argument's
    when it has one, else the environment's), JSON content type and a
    timeout of 10 seconds. *)
Theorem C10_constructor_requires_key :
  (forall apiKey env,
      (apiKey = None \/ apiKey = Some EmptyString) ->
      (env = None \/ env = Some EmptyString) ->
      constructor apiKey env = Throw {| message := "Yelp API key is required" |})
  /\
  (forall apiKey env key,
      key <> EmptyString ->
      (apiKey = Some key \/
       ((apiKey = None \/ apiKey = Some EmptyString) /\ env = Some key)) ->
      constructor apiKey env
      = Return {| client := {| baseURL := "https://api.yelp.com";
                               header_Authorization := "Bearer " +:+ key;
                               header_Content_Type := "application/json";
                               timeout := 10000 |};
                  cache := ∅ |}).
Proof.
  split.
  - intros apiKey env [-> | ->] [-> | ->]; reflexivity.
  - intros apiKey env key Hkey Hsrc. unfold constructor.
    destruct key as [|c key]; [congruence|].
    destruct Hsrc as [-> | [[-> | ->] ->]]; reflexivity.
Qed.

Lemma C10_constructor_requires_key_witness :
  constructor None (Some EmptyString) = Throw {| message := "Yelp API key is required" |}
  /\ constructor (Some EmptyString) (Some "k3y")
     = Return {| client := {| baseURL := "https://api.yelp.com";
                              header_Authorization := "Bearer k3y";
                              header_Content_Type := "application/json";
                              timeout := 10000 |};
                 cache := ∅ |}.
Proof.
  split.
  - apply (proj1 C10_constructor_requires_key); [left | right]; reflexivity.
  - apply (proj2 C10_constructor_requires_key (Some EmptyString) (Some "k3y") "k3y").
    + discriminate.
    + right. split; [right|]; reflexivity.
Defined.

(** C5: a remote coordinate pair within [-90,90] x [-180,180] comes
    out of both formatters with [lat] the latitude and [lng] the
    longitude, unchanged. *)
Theorem C5_coordinates_round_trip
        (response : YelpPlaceDetailsResponse) (business : YelpBusiness)
        (latitude longitude : float) :
  ((-90) <=? latitude)%float = true -> (latitude <=? 90)%float = true ->
  ((-180) <=? longitude)%float = true -> (longitude <=? 180)%float = true ->
  pd_coordinates response = {| latitude := latitude; longitude := longitude |} ->
  b_coordinates business = {| latitude := latitude; longitude := longitude |} ->
  place_coordinates (formatPlaceDetails response) = {| lat := latitude; lng := longitude |}
  /\ place_coordinates (formatSearchResult business) = {| lat := latitude; lng := longitude |}.
Proof.
  intros _ _ _ _ Hr Hb. unfold formatPlaceDetails, formatSearchResult.
  cbn [place_coordinates]. rewrite Hr, Hb. split; reflexivity.
Qed.

(** The corners of the range and the origin. *)
Lemma C5_coordinates_round_trip_witness :
  (place_coordinates (formatPlaceDetails (Demo.sampleDetails 90 (-180)))
   = {| lat := 90%float; lng := (-180)%float |}
   /\ place_coordinates (formatSearchResult (Demo.sampleBusiness 90 (-180)))
      = {| lat := 90%float; lng := (-180)%float |})
  /\
  (place_coordinates (formatPlaceDetails (Demo.sampleDetails (-90) 180))
   = {| lat := (-90)%float; lng := 180%float |}
   /\ place_coordinates (formatSearchResult (Demo.sampleBusiness (-90) 180))
      = {| lat := (-90)%float; lng := 180%float |})
  /\
  (place_coordinates (formatPlaceDetails (Demo.sampleDetails 0 0))
   = {| lat := 0%float; lng := 0%float |}
   /\ place_coordinates (formatSearchResult (Demo.sampleBusiness 0 0))
      = {| lat := 0%float; lng := 0%float |}).
Proof.
  split; [|split].
  - apply (C5_coordinates_round_trip (Demo.sampleDetails 90 (-180))
                                     (Demo.sampleBusiness 90 (-180)));
      vm_compute; reflexivity.
  - apply (C5_coordinates_round_trip (Demo.sampleDetails (-90) 180)
                                     (Demo.sampleBusiness (-90) 180));
      vm_compute; reflexivity.
  - apply (C5_coordinates_round_trip (Demo.sampleDetails 0 0)
                                     (Demo.sampleBusiness 0 0));
      vm_compute; reflexivity.
Defined.




(** *** Retry, cache and chat normalisation *)

Lemma requests_app (l1 l2 : list Event) :
  requests (l1 ++ l2) = (requests l1 + requests l2)%nat.
Proof. unfold requests. now rewrite List.filter_app, List.length_app. Qed.

Lemma retryable_not_client (e : Thrown) : retryable e -> isClientError e = false.
Proof.
  unfold isClientError. intros [-> | (st & -> & Hst)].
  - apply andb_false_r.
  - destruct (Z.ltb_spec st 500); [lia|]. now rewrite !andb_false_r.
Qed.

Lemma client_status_is_client (e : Thrown) :
  carriesClientStatus e -> isClientError e = true.
Proof.
  intros (msg & r & -> & Hnz & Hlt). unfold isClientError, truthy_Z.
  cbn [isAxiosError responseStatus andb].
  destruct (Z.eqb_spec (status r) 0); [contradiction|].
  destruct (Z.ltb_spec (status r) 500); [reflexivity | lia].
Qed.

Section Client.
Context {World : Type}.
Context (Date_now : World -> Z).
Context (sleep : Z -> World -> World).
Context (JSON_stringify : KeyParams -> string).
Context (client_post_chat : AxiosInstance -> string -> YelpChatRequest -> World ->
                            Completion Thrown YelpChatResponse * World).
Context (client_get_business : AxiosInstance -> string -> World ->
                               Completion Thrown YelpPlaceDetailsResponse * World).
Context (client_get_search : AxiosInstance -> string -> SearchParams -> World ->
                             Completion Thrown YelpSearchResponse * World).

(** Whatever the request function does, the loop only appends to the
    log, and adds at most one request per iteration. *)
Lemma retryLoop_log {T : Type} (requestFn : World -> Completion Thrown T * World)
      (maxRetries : Z) (remaining : nat) :
  forall attempt lastError sys,
  exists l,
    log (snd (retryLoop sleep requestFn maxRetries remaining attempt lastError sys))
    = (log sys ++ l)%list
    /\ (requests l <= remaining)%nat.
Proof.
  induction remaining as [|remaining IH]; intros attempt lastError sys.
  - exists []. cbn. rewrite List.app_nil_r. auto.
  - cbn [retryLoop]. destruct (requestFn (world sys)) as [[response|e] w'].
    + exists [EvRequest]. cbn. split; [reflexivity | lia].
    + destruct (isClientError e).
      * exists [EvRequest]. cbn. split; [reflexivity | lia].
      * match goal with
        | |- context [retryLoop _ _ _ _ _ _ ?s] =>
            destruct (IH (attempt + 1) e s) as (l & Hl & Hn); rewrite Hl
        end.
        destruct (attempt <? maxRetries - 1); cbn [log doSleep].
        -- exists (EvRequest :: EvSleep (2 ^ attempt * 1000) :: l).
           rewrite <- !List.app_assoc. split; [reflexivity|].
           change (EvRequest :: EvSleep (2 ^ attempt * 1000) :: l)
             with ([EvRequest; EvSleep (2 ^ attempt * 1000)] ++ l)%list.
           rewrite requests_app. cbn. lia.
        -- exists (EvRequest :: l).
           rewrite <- !List.app_assoc. split; [reflexivity|].
           change (EvRequest :: l) with ([EvRequest] ++ l)%list.
           rewrite requests_app. cbn. lia.
Qed.

(** One iteration of the loop. *)
Lemma retryLoop_step {T : Type} (requestFn : World -> Completion Thrown T * World)
      (maxRetries : Z) (remaining : nat) (attempt : Z) (lastError : Thrown)
      (sys : Sys World) :
  retryLoop sleep requestFn maxRetries (S remaining) attempt lastError sys
  = let '(r, w') := requestFn (world sys) in
    let sys1 := {| world := w'; log := log sys ++ [EvRequest] |} in
    match r with
    | Return response_data => (Return response_data, sys1)
    | Throw e =>
        if isClientError e then (Throw e, sys1)
        else retryLoop sleep requestFn maxRetries remaining (attempt + 1) e
               (if attempt <? maxRetries - 1
                then doSleep sleep (2 ^ attempt * 1000) sys1
                else sys1)
    end.
Proof. reflexivity. Qed.

(** With a budget of three the request function is invoked at least
    once, before anything else is logged, and at most three times. *)
Lemma retryRequest_starts_with_request {T : Type}
      (requestFn : World -> Completion Thrown T * World) (sys : Sys World) :
  exists rest,
    log (snd (retryRequest sleep requestFn 3 sys)) = (log sys ++ EvRequest :: rest)%list
    /\ (requests (EvRequest :: rest) <= 3)%nat.
Proof.
  unfold retryRequest. change (Z.to_nat 3) with 3%nat. rewrite retryLoop_step.
  destruct (requestFn (world sys)) as [[response|e] w'].
  - exists []. split; [reflexivity | cbn; lia].
  - destruct (isClientError e).
    + exists []. split; [reflexivity | cbn; lia].
    + cbv zeta.
      match goal with
      | |- context [retryLoop _ _ _ ?n ?a ?e ?s] =>
          destruct (retryLoop_log requestFn 3 n a e s) as (l & Hl & Hn); rewrite Hl
      end.
      change (0 <? 3 - 1) with true. cbn [log doSleep].
      rewrite <- !List.app_assoc. exists (EvSleep (2 ^ 0 * 1000) :: l).
      split; [reflexivity|].
      change (EvRequest :: EvSleep (2 ^ 0 * 1000) :: l)
        with ([EvRequest; EvSleep (2 ^ 0 * 1000)] ++ l)%list.
      rewrite requests_app. cbn. lia.
Qed.

(** C2: under the retry wrapper with its budget of three attempts, a
    failure carrying an HTTP status below 500 at the first attempt is
    thrown at once, after that single attempt; failures without a
    status or with a status of 500 or more are retried, after 1000 ms
    and then after 2000 ms, and the third failure is the one thrown;
    and no request function is invoked more than three times. *)
Theorem C2_retry_policy {T : Type}
        (requestFn : World -> Completion Thrown T * World) (sys : Sys World) :
  (forall e w1,
      requestFn (world sys) = (Throw e, w1) -> carriesClientStatus e ->
      retryRequest sleep requestFn 3 sys
      = (Throw e, {| world := w1; log := log sys ++ [EvRequest] |}))
  /\
  (forall e1 w1 e2 w2 e3 w3,
      requestFn (world sys) = (Throw e1, w1) -> retryable e1 ->
      requestFn (sleep 1000 w1) = (Throw e2, w2) -> retryable e2 ->
      requestFn (sleep 2000 w2) = (Throw e3, w3) ->
      retryRequest sleep requestFn 3 sys
      = (Throw e3,
         {| world := w3;
            log := log sys ++ [EvRequest; EvSleep 1000; EvRequest;
                               EvSleep 2000; EvRequest] |}))
  /\
  (exists l,
      log (snd (retryRequest sleep requestFn 3 sys)) = (log sys ++ l)%list
      /\ (requests l <= 3)%nat).
Proof.
  split; [|split].
  - intros e w1 H1 Hc. unfold retryRequest. change (Z.to_nat 3) with 3%nat.
    rewrite retryLoop_step, H1, (client_status_is_client e Hc). reflexivity.
  - intros e1 w1 e2 w2 e3 w3 H1 R1 H2 R2 H3.
    unfold retryRequest. change (Z.to_nat 3) with 3%nat.
    rewrite retryLoop_step, H1, (retryable_not_client e1 R1). cbv zeta.
    change (0 <? 3 - 1) with true. change (2 ^ 0 * 1000) with 1000.
    rewrite retryLoop_step. cbn [doSleep world log].
    rewrite H2, (retryable_not_client e2 R2). cbv zeta.
    change (0 + 1 <? 3 - 1) with true. change (2 ^ (0 + 1) * 1000) with 2000.
    rewrite retryLoop_step. cbn [doSleep world log].
    rewrite H3. cbv zeta. change (0 + 1 + 1 <? 3 - 1) with false.
    rewrite <- !List.app_assoc. cbn [app retryLoop].
    destruct (isClientError e3); reflexivity.
  - apply (retryLoop_log requestFn 3 3 0 ThrownNull sys).
Qed.

(** **** The cache *)

Lemma getFromCache_fresh (key : string) (self : t) (sys : Sys World)
      (entry : CacheEntry) :
  cache self !! key = Some entry ->
  Date_now (world sys) - entry_timestamp entry <= CACHE_TTL ->
  getFromCache Date_now key self sys = (Some (entry_data entry), self).
Proof.
  intros Hentry Hage. unfold getFromCache. rewrite Hentry.
  destruct (Z.ltb_spec CACHE_TTL (Date_now (world sys) - entry_timestamp entry));
    [lia | reflexivity].
Qed.

Lemma getFromCache_stale (key : string) (self : t) (sys : Sys World) :
  (cache self !! key = None \/
   exists entry, cache self !! key = Some entry /\
                 CACHE_TTL < Date_now (world sys) - entry_timestamp entry) ->
  exists self1, getFromCache Date_now key self sys = (None, self1)
                /\ client self1 = client self.
Proof.
  unfold getFromCache. intros [-> | (entry & -> & Hage)].
  - exists self. auto.
  - destruct (Z.ltb_spec CACHE_TTL (Date_now (world sys) - entry_timestamp entry));
      [|lia].
    eexists. split; reflexivity.
Qed.

Lemma getFromCache_hit_inv (key : string) (self self1 : t) (sys : Sys World)
      (v : Value) :
  getFromCache Date_now key self sys = (Some v, self1) ->
  self1 = self /\
  exists entry, cache self !! key = Some entry /\ entry_data entry = v /\
                Date_now (world sys) - entry_timestamp entry <= CACHE_TTL.
Proof.
  unfold getFromCache. destruct (cache self !! key) as [entry|]; [|discriminate].
  destruct (Z.ltb_spec CACHE_TTL (Date_now (world sys) - entry_timestamp entry));
    [discriminate|].
  intros [= <- <-]. split; [reflexivity|]. exists entry. auto.
Qed.

Lemma cachedCall_discipline {T : Type} (key : string)
      (requestFn : AxiosInstance -> World -> Completion Thrown T * World)
      (normalise : T -> Value) (context : string) :
  cacheDiscipline Date_now key
    (cachedCall Date_now sleep key requestFn normalise context).
Proof.
  assert (Hhit : forall self sys entry,
             cache self !! key = Some entry ->
             Date_now (world sys) - entry_timestamp entry <= CACHE_TTL ->
             cachedCall Date_now sleep key requestFn normalise context self sys
             = (Return (entry_data entry), self, sys)).
  { intros self sys entry Hentry Hage. unfold cachedCall.
    now rewrite (getFromCache_fresh key self sys entry Hentry Hage). }
  split; [exact Hhit | split].
  - intros self sys Hstale.
    destruct (getFromCache_stale key self sys Hstale) as (self1 & Hget & _).
    unfold cachedCall. rewrite Hget.
    destruct (retryRequest_starts_with_request (requestFn (client self1)) sys)
      as (rest & Hlog & Hcount).
    destruct (retryRequest sleep (requestFn (client self1)) 3 sys)
      as [[response|e] sys'] eqn:Hretry; cbn [snd] in Hlog.
    + eexists _, _, _, rest. split; [reflexivity|]. split; [exact Hlog|].
      split; [exact Hcount|].
      intros v [= <-]. unfold setCache. cbn [cache]. apply lookup_insert_eq.
    + eexists _, _, _, rest. split; [reflexivity|]. split; [exact Hlog|].
      split; [exact Hcount|].
      intros v [=].
  - intros self sys v self' sys'. unfold cachedCall at 1.
    destruct (getFromCache Date_now key self sys) as [[cached|] self1] eqn:Hget.
    + intros [= <- <- <-].
      apply getFromCache_hit_inv in Hget as (-> & entry & Hentry & Hdata & _).
      exists entry. split; [exact Hentry|]. split; [exact Hdata|].
      intros sys2 Hage. rewrite <- Hdata. now apply Hhit.
    + destruct (retryRequest sleep (requestFn (client self1)) 3 sys)
        as [[response|e] sys1]; [|discriminate].
      intros [= <- <- <-].
      exists {| entry_data := normalise response;
                entry_timestamp := Date_now (world sys1) |}.
      assert (Hentry : cache (setCache Date_now key (normalise response) self1 sys1)
                       !! key
                       = Some {| entry_data := normalise response;
                                 entry_timestamp := Date_now (world sys1) |})
        by (unfold setCache; cbn [cache]; apply lookup_insert_eq).
      split; [exact Hentry|]. split; [reflexivity|].
      intros sys2 Hage. now apply (Hhit _ sys2 _ Hentry).
Qed.

Lemma cacheDiscipline_ext (key : string)
      (op op' : t -> Sys World -> Completion Error Value * t * Sys World) :
  (forall self sys, op self sys = op' self sys) ->
  cacheDiscipline Date_now key op' -> cacheDiscipline Date_now key op.
Proof.
  intros Hext (Hhit & Hmiss & Htwice). split; [|split].
  - intros self sys entry He Ha. rewrite Hext. now apply Hhit.
  - intros self sys Hs. rewrite Hext. now apply Hmiss.
  - intros self sys v self' sys' Hop. rewrite Hext in Hop.
    destruct (Htwice _ _ _ _ _ Hop) as (entry & He & Hd & Hagain).
    exists entry. split; [exact He|]. split; [exact Hd|].
    intros sys2 Ha. rewrite Hext. now apply Hagain.
Qed.

(** Each operation is an instance of the common shape. *)
Lemma sendChatMessage_shape message conversationHistory context self sys :
  sendChatMessage Date_now sleep JSON_stringify client_post_chat
                  message conversationHistory context self sys
  = cachedCall Date_now sleep
      (generateCacheKey JSON_stringify "chat" (ChatParams message context))
      (fun c => client_post_chat c "/v2/ai/chat"
                  (chatRequest message conversationHistory context))
      (fun response =>
         VChat {| cr_response := chat_response response;
                  cr_recommendations :=
                    parseRecommendations
                      (Some (default [] (chat_recommendations response))) |})
      "Failed to send chat message" self sys.
Proof. reflexivity. Qed.

Lemma getPlaceDetails_shape placeId self sys :
  getPlaceDetails Date_now sleep JSON_stringify client_get_business placeId self sys
  = cachedCall Date_now sleep
      (generateCacheKey JSON_stringify "place" (PlaceParams placeId))
      (fun c => client_get_business c ("/v3/businesses/" +:+ placeId))
      (fun response => VPlace (formatPlaceDetails response))
      ("Failed to get place details for " +:+ placeId) self sys.
Proof. reflexivity. Qed.

Lemma searchPlaces_shape query location filters self sys :
  searchPlaces Date_now sleep JSON_stringify client_get_search
               query location filters self sys
  = cachedCall Date_now sleep
      (generateCacheKey JSON_stringify "search" (SearchKeyParams query location filters))
      (fun c => client_get_search c "/v3/businesses/search"
                  (searchParams query location filters))
      (fun response => VPlaces (List.map formatSearchResult (businesses response)))
      "Failed to search places" self sys.
Proof. reflexivity. Qed.

(** What one cached call does to the cache, case by case. *)
Lemma cachedCall_cases {T : Type} (key : string)
      (requestFn : AxiosInstance -> World -> Completion Thrown T * World)
      (normalise : T -> Value) (context : string) (self : t) (sys : Sys World) :
  let out := cachedCall Date_now sleep key requestFn normalise context self sys in
  client (snd (fst out)) = client self /\
  ((exists entry, cache self !! key = Some entry /\
                  fst (fst out) = Return (entry_data entry) /\
                  snd (fst out) = self /\ snd out = sys)
   \/
   (exists response, fst (fst out) = Return (normalise response) /\
                     cache (snd (fst out))
                     = <[key := {| entry_data := normalise response;
                                   entry_timestamp := Date_now (world (snd out)) |}]>
                         (delete key (cache self)))
   \/
   (exists err, fst (fst out) = Throw err /\
                cache (snd (fst out)) = delete key (cache self))).
Proof.
  cbv zeta. unfold cachedCall, getFromCache.
  destruct (cache self !! key) as [entry|] eqn:Hentry.
  - destruct (CACHE_TTL <? Date_now (world sys) - entry_timestamp entry).
    + cbn [client].
      destruct (retryRequest sleep (requestFn (client self)) 3 sys) as [[response|e] sys'];
        cbn [fst snd].
      * split; [reflexivity|]. right; left. exists response. split; [reflexivity|].
        unfold setCache. cbn [cache]. reflexivity.
      * split; [reflexivity|]. right; right. eexists. split; reflexivity.
    + cbn [fst snd]. split; [reflexivity|]. left. exists entry. auto.
  - destruct (retryRequest sleep (requestFn (client self)) 3 sys) as [[response|e] sys'];
      cbn [fst snd].
    + split; [reflexivity|]. right; left. exists response. split; [reflexivity|].
      unfold setCache. cbn [cache]. now rewrite delete_id.
    + split; [reflexivity|]. right; right. eexists. split; [reflexivity|].
      now rewrite delete_id.
Qed.

Lemma forEachOperation_cachedCall (P : string -> Operation World -> Prop) :
  (forall (T : Type) key (requestFn : AxiosInstance -> World -> Completion Thrown T * World)
          normalise context,
      P key (cachedCall Date_now sleep key requestFn normalise context)) ->
  forEachOperation Date_now sleep JSON_stringify client_post_chat client_get_business
                   client_get_search P.
Proof.
  intros H. split; [|split].
  - intros msg history ctx.
    apply (H YelpChatResponse
             (generateCacheKey JSON_stringify "chat" (ChatParams msg ctx))
             (fun c => client_post_chat c "/v2/ai/chat" (chatRequest msg history ctx))
             (fun response =>
                VChat {| cr_response := chat_response response;
                         cr_recommendations :=
                           parseRecommendations
                             (Some (default [] (chat_recommendations response))) |})
             "Failed to send chat message").
  - intros placeId.
    apply (H YelpPlaceDetailsResponse
             (generateCacheKey JSON_stringify "place" (PlaceParams placeId))
             (fun c => client_get_business c ("/v3/businesses/" +:+ placeId))
             (fun response => VPlace (formatPlaceDetails response))
             ("Failed to get place details for " +:+ placeId)).
  - intros query loc filters.
    apply (H YelpSearchResponse
             (generateCacheKey JSON_stringify "search" (SearchKeyParams query loc filters))
             (fun c => client_get_search c "/v3/businesses/search"
                         (searchParams query loc filters))
             (fun response => VPlaces (List.map formatSearchResult (businesses response)))
             "Failed to search places").
Qed.

(** The key of an operation: its name, a colon, the serialized
    parameters; two keys are equal only for the same name and the same
    serialization. *)
Lemma generateCacheKey_inj (type type' : string) (params params' : KeyParams) :
  In type ["chat"; "place"; "search"] -> In type' ["chat"; "place"; "search"] ->
  generateCacheKey JSON_stringify type params
  = generateCacheKey JSON_stringify type' params' ->
  type = type' /\ JSON_stringify params = JSON_stringify params'.
Proof.
  unfold generateCacheKey.
  intros [<- | [<- | [<- | []]]] [<- | [<- | [<- | []]]] H;
    cbv in H; try discriminate H; injection H as H; auto.
Qed.

Lemma absent_entry_sends_request :
  forEachOperation Date_now sleep JSON_stringify client_post_chat client_get_business
                   client_get_search
    (fun key op => forall self sys, cache self !! key = None -> sendsRequest op self sys).
Proof.
  apply forEachOperation_cachedCall.
  intros T key requestFn normalise context self sys Hnone.
  destruct (proj1 (proj2 (cachedCall_discipline key requestFn normalise context))
              self sys (or_introl Hnone)) as (r & s1 & s2 & rest & Heq & Hlog & _).
  now exists r, s1, s2, rest.
Qed.

Lemma other_keys_are_kept :
  forEachOperation Date_now sleep JSON_stringify client_post_chat client_get_business
                   client_get_search
    (fun key op =>
       forall self sys other,
         other <> key -> cache (snd (fst (op self sys))) !! other = cache self !! other).
Proof.
  apply forEachOperation_cachedCall.
  intros T key requestFn normalise context self sys other Hne.
  destruct (cachedCall_cases key requestFn normalise context self sys)
    as [_ [(entry & _ & _ & Hs & _) | [(response & _ & Hc) | (err & _ & Hc)]]].
  - now rewrite Hs.
  - rewrite Hc. rewrite lookup_insert_ne by congruence.
    now rewrite lookup_delete_ne by congruence.
  - rewrite Hc. now rewrite lookup_delete_ne by congruence.
Qed.

(** C3: each of the three operations keeps the caching contract for
    the key made of its name and its serialized parameters: an entry
    at most five minutes old is returned without a request, an absent
    or older entry leads to a request and, on success, to an entry
    with the new answer and a new time stamp, and a call repeated
    while the entry is at most five minutes old adds no request.  The
    key is the operation's name, a colon and the serialized parameters,
    so that two invocations share an entry only when they have the same
    operation name and the same serialized parameters: a call leaves
    the entries of all other keys as they were, and an invocation whose
    own key held no entry sends a request, whatever another invocation
    has cached before it. *)
Theorem C3_cache_discipline :
  (forall message conversationHistory context,
      cacheDiscipline Date_now
        (generateCacheKey JSON_stringify "chat" (ChatParams message context))
        (sendChatMessage Date_now sleep JSON_stringify client_post_chat
                         message conversationHistory context))
  /\
  (forall placeId,
      cacheDiscipline Date_now
        (generateCacheKey JSON_stringify "place" (PlaceParams placeId))
        (getPlaceDetails Date_now sleep JSON_stringify client_get_business placeId))
  /\
  (forall query location filters,
      cacheDiscipline Date_now
        (generateCacheKey JSON_stringify "search"
                          (SearchKeyParams query location filters))
        (searchPlaces Date_now sleep JSON_stringify client_get_search
                      query location filters))
  /\ CACHE_TTL = 300000
  /\
  (forall type params,
      generateCacheKey JSON_stringify type params
      = type +:+ ":" +:+ JSON_stringify params)
  /\
  (forall type type' params params',
      In type ["chat"; "place"; "search"] -> In type' ["chat"; "place"; "search"] ->
      (generateCacheKey JSON_stringify type params
       = generateCacheKey JSON_stringify type' params'
       <-> type = type' /\ JSON_stringify params = JSON_stringify params'))
  /\
  forEachOperation Date_now sleep JSON_stringify client_post_chat client_get_business
                   client_get_search
    (fun key op =>
       forall self sys other,
         other <> key -> cache (snd (fst (op self sys))) !! other = cache self !! other)
  /\
  forEachOperation Date_now sleep JSON_stringify client_post_chat client_get_business
                   client_get_search
    (fun key op =>
       forall self sys,
         forEachOperation Date_now sleep JSON_stringify client_post_chat
                          client_get_business client_get_search
           (fun key' op' =>
              key' <> key -> cache self !! key' = None ->
              forall sys2, sendsRequest op' (snd (fst (op self sys))) sys2)).
Proof.
  split; [|split; [|split; [|split; [|split; [|split; [|split]]]]]].
  - intros message conversationHistory context.
    eapply cacheDiscipline_ext;
      [intros self sys; apply sendChatMessage_shape | apply cachedCall_discipline].
  - intros placeId.
    eapply cacheDiscipline_ext;
      [intros self sys; apply getPlaceDetails_shape | apply cachedCall_discipline].
  - intros query location filters.
    eapply cacheDiscipline_ext;
      [intros self sys; apply searchPlaces_shape | apply cachedCall_discipline].
  - reflexivity.
  - reflexivity.
  - intros type type' params params' Ht Ht'. split.
    + now apply generateCacheKey_inj.
    + intros [-> Heq]. unfold generateCacheKey. now rewrite Heq.
  - exact other_keys_are_kept.
  - destruct other_keys_are_kept as (Kc & Kp & Ks).
    destruct absent_entry_sends_request as (Ac & Ap & As).
    split; [|split].
    + intros msg history ctx self sys. split; [|split].
      * intros msg' history' ctx' Hne Hnone sys2. apply Ac.
        now rewrite (Kc msg history ctx self sys _ Hne).
      * intros placeId' Hne Hnone sys2. apply Ap.
        now rewrite (Kc msg history ctx self sys _ Hne).
      * intros query' loc' filters' Hne Hnone sys2. apply As.
        now rewrite (Kc msg history ctx self sys _ Hne).
    + intros placeId self sys. split; [|split].
      * intros msg' history' ctx' Hne Hnone sys2. apply Ac.
        now rewrite (Kp placeId self sys _ Hne).
      * intros placeId' Hne Hnone sys2. apply Ap.
        now rewrite (Kp placeId self sys _ Hne).
      * intros query' loc' filters' Hne Hnone sys2. apply As.
        now rewrite (Kp placeId self sys _ Hne).
    + intros query loc filters self sys. split; [|split].
      * intros msg' history' ctx' Hne Hnone sys2. apply Ac.
        now rewrite (Ks query loc filters self sys _ Hne).
      * intros placeId' Hne Hnone sys2. apply Ap.
        now rewrite (Ks query loc filters self sys _ Hne).
      * intros query' loc' filters' Hne Hnone sys2. apply As.
        now rewrite (Ks query loc filters self sys _ Hne).
Qed.

(** **** Chat normalisation *)

Lemma parseRecommendations_lookup (remote : list YelpRecommendation) :
  forall (i : nat) (rec : YelpRecommendation),
    remote !! i = Some rec ->
    exists r, parseRecommendations (Some remote) !! i = Some r /\
              placeId r = place_id rec /\ placeName r = name rec /\
              relevanceScore r = relevance_score rec.
Proof.
  induction remote as [|x remote IH]; intros [|i] rec Hi; try discriminate.
  - injection Hi as ->. eexists. split; [reflexivity|]. auto.
  - apply (IH i rec Hi).
Qed.

Lemma parseRecommendations_length (remote : list YelpRecommendation) :
  length (parseRecommendations (Some remote)) = length remote.
Proof. apply List.length_map. Qed.

(** C6: when the cache does not answer and the remote chat call
    succeeds, [sendChatMessage] returns the remote text with a list
    of recommendations: the empty list when the remote field is
    absent, and otherwise one element per remote element, in order,
    with [placeId], [placeName] and [relevanceScore] taken from
    [place_id], [name] and [relevance_score]. *)
Theorem C6_chat_recommendations
        (message : string) (conversationHistory : list Message)
        (context : option ConversationContext) (self : t) (sys sys' : Sys World)
        (response : YelpChatResponse) :
  fst (getFromCache Date_now
         (generateCacheKey JSON_stringify "chat" (ChatParams message context))
         self sys) = None ->
  retryRequest sleep
    (client_post_chat (client self) "/v2/ai/chat"
                      (chatRequest message conversationHistory context)) 3 sys
  = (Return response, sys') ->
  exists recs self',
    sendChatMessage Date_now sleep JSON_stringify client_post_chat
                    message conversationHistory context self sys
    = (Return (VChat {| cr_response := chat_response response;
                        cr_recommendations := recs |}), self', sys')
    /\ (chat_recommendations response = None -> recs = [])
    /\ (forall remote,
           chat_recommendations response = Some remote ->
           length recs = length remote /\
           forall (i : nat) (rec : YelpRecommendation),
             remote !! i = Some rec ->
             exists r, recs !! i = Some r /\
                       placeId r = place_id rec /\ placeName r = name rec /\
                       relevanceScore r = relevance_score rec).
Proof.
  intros Hmiss Hretry. unfold sendChatMessage.
  destruct (getFromCache Date_now _ self sys) as [cached self1] eqn:Hget.
  cbn [fst] in Hmiss. subst cached.
  assert (Hclient : client self1 = client self).
  { unfold getFromCache in Hget.
    destruct (cache self !! _) as [entry|]; [destruct (_ <? _)|];
      try discriminate Hget; injection Hget as <-; reflexivity. }
  rewrite Hclient, Hretry.
  eexists _, _. split; [reflexivity|]. split.
  - intros ->. reflexivity.
  - intros remote ->. cbn [default]. split.
    + apply parseRecommendations_length.
    + apply parseRecommendations_lookup.
Qed.

End Client.

(** A timeout and two 503 answers: three attempts, 1 s and 2 s apart,
    then the last 503 is thrown.  A 404: one attempt. *)
Lemma C2_retry_policy_witness :
  retryRequest Demo.sleep Demo.request 3
    (Demo.start [Throw Demo.timeoutError; Throw (Demo.httpError 503);
                 Throw (Demo.httpError 503); Return 7])
  = (Throw (Demo.httpError 503),
     {| world := {| Demo.now := 3360; Demo.replies := [Return 7] |};
        log := [EvRequest; EvSleep 1000; EvRequest; EvSleep 2000; EvRequest] |})
  /\
  retryRequest Demo.sleep Demo.request 3
    (Demo.start [Throw (Demo.httpError 404); Return 7])
  = (Throw (Demo.httpError 404),
     {| world := {| Demo.now := 120; Demo.replies := [Return 7] |};
        log := [EvRequest] |}).
Proof.
  split.
  - apply (proj1 (proj2 (C2_retry_policy Demo.sleep Demo.request
                           (Demo.start [Throw Demo.timeoutError;
                                        Throw (Demo.httpError 503);
                                        Throw (Demo.httpError 503); Return 7])))
             Demo.timeoutError
             {| Demo.now := 120;
                Demo.replies := [Throw (Demo.httpError 503);
                                 Throw (Demo.httpError 503); Return 7] |}
             (Demo.httpError 503)
             {| Demo.now := 1240;
                Demo.replies := [Throw (Demo.httpError 503); Return 7] |}
             (Demo.httpError 503)
             {| Demo.now := 3360; Demo.replies := [Return 7] |}).
    + reflexivity.
    + left. reflexivity.
    + reflexivity.
    + right. exists 503. split; [reflexivity | lia].
    + reflexivity.
  - apply (proj1 (C2_retry_policy Demo.sleep Demo.request
                    (Demo.start [Throw (Demo.httpError 404); Return 7]))
             (Demo.httpError 404)
             {| Demo.now := 120; Demo.replies := [Return 7] |}).
    + reflexivity.
    + eexists _, _. split; [reflexivity|]. cbn. lia.
Defined.

(** The entry written at 120 ms answers a call made exactly five
    minutes later; one millisecond after that a request is sent. *)
Lemma C3_cache_discipline_witness :
  Demo.sendChat Demo.warmService (Demo.later 300120)
  = (Return (VChat {| cr_response := "Here are some ideas"; cr_recommendations := [] |}),
     Demo.warmService, Demo.later 300120)
  /\
  (exists r self' sys' rest,
      Demo.sendChat Demo.warmService (Demo.later 300121) = (r, self', sys') /\
      log sys' = EvRequest :: rest /\
      (requests (EvRequest :: rest) <= 3)%nat /\
      forall v, r = Return v ->
                cache self' !! Demo.chatKey
                = Some {| entry_data := v;
                          entry_timestamp := Demo.Date_now (world sys') |})
  /\
  sendsRequest
    (sendChatMessage Demo.Date_now Demo.sleep Demo.stringify Demo.post_chat
                     "table for six" [] None)
    Demo.warmService (Demo.later 200).
Proof.
  pose proof (C3_cache_discipline Demo.Date_now Demo.sleep Demo.stringify
                Demo.post_chat Demo.get_business Demo.get_search)
    as (Hchat & _ & _ & _ & _ & _ & _ & Hfresh & _).
  destruct (Hchat "table for two" [] None) as (Hhit & Hmiss & _).
  split; [|split].
  - apply (Hhit Demo.warmService (Demo.later 300120)
             {| entry_data :=
                  VChat {| cr_response := "Here are some ideas";
                           cr_recommendations := [] |};
                entry_timestamp := 120 |}).
    + vm_compute. reflexivity.
    + vm_compute. discriminate.
  - apply (Hmiss Demo.warmService (Demo.later 300121)).
    right.
    exists {| entry_data :=
                VChat {| cr_response := "Here are some ideas";
                         cr_recommendations := [] |};
              entry_timestamp := 120 |}.
    split.
    + vm_compute. reflexivity.
    + vm_compute. reflexivity.
  - apply (proj1 (Hfresh "table for two" [] None Demo.service
                    (Demo.start [Return (Demo.chatReply None)]))
             "table for six" [] None).
    + vm_compute. discriminate.
    + reflexivity.
Defined.

(** A reply without the field, and a reply with one recommendation. *)
Lemma C6_chat_recommendations_witness :
  (exists self',
      Demo.sendChat Demo.service (Demo.start [Return (Demo.chatReply None)])
      = (Return (VChat {| cr_response := "Here are some ideas";
                          cr_recommendations := [] |}),
         self',
         {| world := {| Demo.now := 120; Demo.replies := [] |}; log := [EvRequest] |}))
  /\
  (exists recs self',
      Demo.sendChat Demo.service
        (Demo.start [Return (Demo.chatReply (Some [Demo.sampleRecommendation]))])
      = (Return (VChat {| cr_response := "Here are some ideas";
                          cr_recommendations := recs |}),
         self',
         {| world := {| Demo.now := 120; Demo.replies := [] |}; log := [EvRequest] |})
      /\ length recs = 1%nat
      /\ exists r, recs !! 0%nat = Some r /\ placeId r = "p1" /\
                   placeName r = "Chez Nous" /\ relevanceScore r = 0.75%float).
Proof.
  split.
  - destruct (C6_chat_recommendations Demo.Date_now Demo.sleep Demo.stringify
                Demo.post_chat "table for two" [] None Demo.service
                (Demo.start [Return (Demo.chatReply None)])
                {| world := {| Demo.now := 120; Demo.replies := [] |};
                   log := [EvRequest] |}
                (Demo.chatReply None) eq_refl eq_refl)
      as (recs & self' & Hcall & Hnone & _).
    exists self'. rewrite <- (Hnone eq_refl). exact Hcall.
  - destruct (C6_chat_recommendations Demo.Date_now Demo.sleep Demo.stringify
                Demo.post_chat "table for two" [] None Demo.service
                (Demo.start [Return (Demo.chatReply (Some [Demo.sampleRecommendation]))])
                {| world := {| Demo.now := 120; Demo.replies := [] |};
                   log := [EvRequest] |}
                (Demo.chatReply (Some [Demo.sampleRecommendation])) eq_refl eq_refl)
      as (recs & self' & Hcall & _ & Hsome).
    destruct (Hsome [Demo.sampleRecommendation] eq_refl) as (Hlen & Hmap).
    exists recs, self'. split; [exact Hcall|]. split; [exact Hlen|].
    exact (Hmap 0%nat Demo.sampleRecommendation eq_refl).
Defined.

End YelpFacts.

(** ** Further properties of the context service *)

Module StringFacts.
Import Js.

Lemma append_cons (x : ascii) (a b : string) : String x a +:+ b = String x (a +:+ b).
Proof. reflexivity. Qed.

Lemma prefix_cons (x y : ascii) (k s : string) :
  String.prefix (String x k) (String y s)
  = if ascii_dec x y then String.prefix k s else false.
Proof. reflexivity. Qed.

Lemma includes_cons (x : ascii) (text k : string) :
  includes (String x text) k = String.prefix k (String x text) || includes text k.
Proof. reflexivity. Qed.

Lemma append_assoc (a b c : string) : (a +:+ b) +:+ c = a +:+ (b +:+ c).
Proof.
  induction a as [|x a IH]; [reflexivity|].
  rewrite !append_cons. now rewrite IH.
Qed.

Lemma append_empty_r (a : string) : a +:+ EmptyString = a.
Proof. induction a as [|x a IH]; [reflexivity|]. rewrite append_cons. now rewrite IH. Qed.

Lemma length_append (a b : string) :
  String.length (a +:+ b) = (String.length a + String.length b)%nat.
Proof.
  induction a as [|x a IH]; [reflexivity|].
  rewrite append_cons. cbn [String.length]. now rewrite IH.
Qed.

Lemma prefix_append (k b : string) : String.prefix k (k +:+ b) = true.
Proof.
  induction k as [|x k IH].
  - now destruct b.
  - rewrite append_cons, prefix_cons.
    destruct (ascii_dec x x); [exact IH | contradiction].
Qed.

Lemma prefix_append_l (k a b : string) :
  String.prefix k a = true -> String.prefix k (a +:+ b) = true.
Proof.
  revert a. induction k as [|x k IH]; intros a H.
  - now destruct (a +:+ b).
  - destruct a as [|y a]; [discriminate H|].
    rewrite append_cons, prefix_cons. rewrite prefix_cons in H.
    destruct (ascii_dec x y); [now apply IH | discriminate].
Qed.

Lemma includes_prefix (s k : string) : String.prefix k s = true -> includes s k = true.
Proof.
  intros H. destruct s; [cbn [includes] | rewrite includes_cons]; now rewrite H.
Qed.

Lemma includes_append_r (a b k : string) :
  includes b k = true -> includes (a +:+ b) k = true.
Proof.
  intros H. induction a as [|x a IH]; [exact H|].
  rewrite append_cons, includes_cons, IH. apply orb_true_r.
Qed.

Lemma includes_append_l (a b k : string) :
  includes a k = true -> includes (a +:+ b) k = true.
Proof.
  induction a as [|x a IH]; intros H.
  - cbn [includes] in H. rewrite orb_false_r in H. apply includes_prefix.
    now apply (prefix_append_l k EmptyString b).
  - rewrite includes_cons in H. apply orb_true_iff in H as [H | H].
    + apply includes_prefix. now apply prefix_append_l.
    + rewrite append_cons, includes_cons, (IH H). apply orb_true_r.
Qed.

Lemma prefix_refl (k : string) : String.prefix k k = true.
Proof. rewrite <- (append_empty_r k) at 2. apply prefix_append. Qed.

Lemma includes_self (k : string) : includes k k = true.
Proof. apply includes_prefix, prefix_refl. Qed.

Lemma includes_join (sep p : string) (parts : list string) :
  In p parts -> includes (join sep parts) p = true.
Proof.
  induction parts as [|q parts IH]; intros Hin; [destruct Hin|].
  destruct parts as [|r parts].
  - destruct Hin as [-> | []]. apply includes_self.
  - change (join sep (q :: r :: parts)) with (q +:+ sep +:+ join sep (r :: parts)).
    destruct Hin as [-> | Hin].
    + apply includes_append_l, includes_self.
    + apply includes_append_r, includes_append_r, IH, Hin.
Qed.

End StringFacts.

Module ContextExtras.
Import Js Regex ContextService StringFacts.

(** *** The saved-place note *)

Lemma pushIfString_nil field phrase parts :
  pushIfString field phrase parts = [] <-> parts = [] /\ blank field.
Proof.
  unfold pushIfString, blank. destruct field as [[|c v]|]; cbn.
  - split; [intros ->; auto | tauto].
  - split.
    + intros H. now apply app_eq_nil in H as [_ H].
    + intros [_ [H | H]]; discriminate H.
  - split; [intros ->; auto | tauto].
Qed.

Lemma pushIfString_keeps field phrase parts x :
  In x parts -> In x (pushIfString field phrase parts).
Proof.
  unfold pushIfString. destruct field as [v|]; [|auto].
  destruct (truthy_string v); [|auto]. intros H. apply in_or_app. now left.
Qed.

Lemma pushIfString_adds phrase parts v :
  v <> EmptyString -> In (phrase v) (pushIfString (Some v) phrase parts).
Proof.
  intros Hv. unfold pushIfString. destruct v; [contradiction|]. cbn.
  apply in_or_app. right. now left.
Qed.

Section Note.
Context (Number_toString_big : Z -> string).

Lemma contextParts_nil (c : SearchContext) :
  contextParts Number_toString_big c = [] <->
  blank (sc_mood c) /\ blank (sc_occasion c) /\
  (sc_groupSize c = None \/ sc_groupSize c = Some 0) /\
  blank (sc_weather c) /\ blank (sc_timeOfDay c) /\ blank (sc_searchQuery c).
Proof.
  unfold contextParts. cbv zeta. rewrite !pushIfString_nil.
  assert (Hg : forall parts,
             match sc_groupSize c with
             | Some n =>
                 if truthy_Z n
                 then (parts ++ [groupPhrase Number_toString_big n])%list else parts
             | None => parts
             end = [] <->
             parts = [] /\ (sc_groupSize c = None \/ sc_groupSize c = Some 0)).
  { intros parts. destruct (sc_groupSize c) as [n|]; [|split; [intros ->; auto | tauto]].
    unfold truthy_Z. destruct (Z.eqb_spec n 0) as [-> | Hn]; cbn.
    - split; [intros ->; auto | tauto].
    - split.
      + intros H. now apply app_eq_nil in H as [_ H].
      + intros [_ [H | [= H]]]; [discriminate H | contradiction]. }
  rewrite Hg, !pushIfString_nil. tauto.
Qed.

(** X1: the note always starts with "Saved " and the place's name, and
    it is exactly that when, and only when, the search context gives
    nothing to say: every text field is unset or empty and the group
    size is unset or 0. *)
Theorem note_starts_with_name (c : SearchContext) (place : Place) :
  startsWith (generateContextNote Number_toString_big c place)
             ("Saved " +:+ place_name place) = true
  /\
  (generateContextNote Number_toString_big c place = "Saved " +:+ place_name place <->
   blank (sc_mood c) /\ blank (sc_occasion c) /\
   (sc_groupSize c = None \/ sc_groupSize c = Some 0) /\
   blank (sc_weather c) /\ blank (sc_timeOfDay c) /\ blank (sc_searchQuery c)).
Proof.
  rewrite <- contextParts_nil. unfold generateContextNote, startsWith.
  destruct (contextParts Number_toString_big c) as [|p parts].
  - split; [|tauto].
    apply prefix_refl.
  - split.
    + rewrite <- append_assoc. apply prefix_append.
    + split; [|discriminate]. intros H. exfalso.
      apply (f_equal String.length) in H.
      rewrite <- append_assoc in H. rewrite !length_append in H.
      cbn [String.length] in H. lia.
Qed.

Lemma pushIfString_In field phrase parts (x : string) :
  In x (pushIfString field phrase parts) <->
  In x parts \/ exists v, field = Some v /\ v <> EmptyString /\ x = phrase v.
Proof.
  unfold pushIfString. destruct field as [[|ch v]|]; cbn [truthy_string].
  - split; [auto | intros [H | (v & [= <-] & Hv & _)]; [exact H | contradiction]].
  - rewrite in_app_iff. cbn [In]. split.
    + intros [H | [<- | []]]; [auto|]. right. exists (String ch v). now repeat split.
    + intros [H | (v' & [= <-] & _ & ->)]; auto.
  - split; [auto | intros [H | (v & [=] & _)]; exact H].
Qed.

Lemma pushGroup_In (g : option Z) (parts : list string) (x : string) :
  In x (match g with
        | Some n =>
            if truthy_Z n
            then (parts ++ [groupPhrase Number_toString_big n])%list else parts
        | None => parts
        end) <->
  In x parts \/ exists n, g = Some n /\ n <> 0 /\ x = groupPhrase Number_toString_big n.
Proof.
  destruct g as [n|]; [|split; [auto | intros [H | (n & [=] & _)]; exact H]].
  unfold truthy_Z. destruct (Z.eqb_spec n 0) as [-> | Hn]; cbn [negb].
  - split; [auto | intros [H | (n & [= <-] & Hn & _)]; [exact H | contradiction]].
  - rewrite in_app_iff. cbn [In]. split.
    + intros [H | [<- | []]]; [auto|]. right. exists n. now repeat split.
    + intros [H | (n' & [= <-] & _ & ->)]; auto.
Qed.

(** X2: every field that is set shows in the note with its own phrase:
    the mood, the occasion, the group size ("solo" for 1, "for two"
    for 2, and otherwise "for a group of " followed by the size as the
    runtime prints it: in decimal digits up to a magnitude of 2^53), the
    weather in lower case, the time of day, and the search query
    between double quotes. *)
Theorem note_mentions_each_field (c : SearchContext) (place : Place) :
  let note := generateContextNote Number_toString_big c place in
  (forall m, sc_mood c = Some m -> m <> EmptyString ->
             includes note ("when looking for " +:+ m +:+ " vibes") = true)
  /\ (forall o, sc_occasion c = Some o -> o <> EmptyString ->
                includes note ("for " +:+ o) = true)
  /\ (sc_groupSize c = Some 1 -> includes note "solo" = true)
  /\ (sc_groupSize c = Some 2 -> includes note "for two" = true)
  /\ (forall n, sc_groupSize c = Some n -> n <> 0 -> n <> 1 -> n <> 2 ->
                Z.abs n <= 2 ^ 53 ->
                includes note ("for a group of " +:+ NilZero.string_of_int (Z.to_int n))
                = true)
  /\ (forall n, sc_groupSize c = Some n -> 2 ^ 53 < Z.abs n ->
                includes note ("for a group of " +:+ Number_toString_big n) = true)
  /\ (forall w, sc_weather c = Some w -> w <> EmptyString ->
                includes note ("on a " +:+ toLowerCase w +:+ " day") = true)
  /\ (forall t, sc_timeOfDay c = Some t -> t <> EmptyString ->
                includes note ("during " +:+ t) = true)
  /\ (forall q, sc_searchQuery c = Some q -> q <> EmptyString ->
                includes note ("while searching for " +:+ quote +:+ q +:+ quote) = true).
Proof.
  intros note.
  assert (Hin : forall p, In p (contextParts Number_toString_big c) ->
                          includes note p = true).
  { intros p Hp. unfold note, generateContextNote.
    destruct (contextParts Number_toString_big c) as [|p0 parts] eqn:E; [destruct Hp|].
    apply includes_append_r, includes_append_r, includes_append_r.
    now apply includes_join. }
  assert (Hparts : forall x,
             In x (contextParts Number_toString_big c) <->
             (((((In x [] \/
                  exists v, sc_mood c = Some v /\ v <> EmptyString /\
                            x = "when looking for " +:+ v +:+ " vibes") \/
                 exists v, sc_occasion c = Some v /\ v <> EmptyString /\ x = "for " +:+ v) \/
                exists n, sc_groupSize c = Some n /\ n <> 0 /\
                          x = groupPhrase Number_toString_big n) \/
               exists v, sc_weather c = Some v /\ v <> EmptyString /\
                         x = "on a " +:+ toLowerCase v +:+ " day") \/
              exists v, sc_timeOfDay c = Some v /\ v <> EmptyString /\ x = "during " +:+ v) \/
             exists v, sc_searchQuery c = Some v /\ v <> EmptyString /\
                       x = "while searching for " +:+ quote +:+ v +:+ quote).
  { intros x. unfold contextParts. cbv zeta.
    rewrite !pushIfString_In, pushGroup_In, !pushIfString_In. reflexivity. }
  assert (Hgroup : forall n, sc_groupSize c = Some n -> n <> 0 ->
                             includes note (groupPhrase Number_toString_big n) = true).
  { intros n Hn Hz. apply Hin, Hparts. do 3 left. right. exists n. auto. }
  repeat apply conj.
  - intros m Hm Hne. apply Hin, Hparts. do 5 left. right. exists m. auto.
  - intros o Ho Hne. apply Hin, Hparts. do 4 left. right. exists o. auto.
  - intros H. apply (Hgroup 1 H). lia.
  - intros H. apply (Hgroup 2 H). lia.
  - intros n H H0 H1 H2 Hsmall.
    replace ("for a group of " +:+ NilZero.string_of_int (Z.to_int n))
      with (groupPhrase Number_toString_big n); [now apply Hgroup|].
    unfold groupPhrase, numberToString.
    destruct (Z.eqb_spec n 1); [contradiction|].
    destruct (Z.eqb_spec n 2); [contradiction|].
    destruct (Z.leb_spec (Z.abs n) (2 ^ 53)); [reflexivity | lia].
  - intros n H Hbig.
    replace ("for a group of " +:+ Number_toString_big n)
      with (groupPhrase Number_toString_big n); [apply Hgroup; [exact H | lia]|].
    unfold groupPhrase, numberToString.
    destruct (Z.eqb_spec n 1); [lia|].
    destruct (Z.eqb_spec n 2); [lia|].
    destruct (Z.leb_spec (Z.abs n) (2 ^ 53)); [lia | reflexivity].
  - intros w Hw Hne. apply Hin, Hparts. do 2 left. right. exists w. auto.
  - intros t Ht Hne. apply Hin, Hparts. left. right. exists t. auto.
  - intros q Hq Hne. apply Hin, Hparts. right. exists q. auto.
Qed.
End Note.

(** *** Extraction from a conversation *)

Lemma conversationText_skips_assistant (before after : list Message) (m : Message) :
  role m = assistant ->
  conversationText (before ++ m :: after) = conversationText (before ++ after).
Proof.
  intros Hm. unfold conversationText. rewrite !List.filter_app. cbn [List.filter].
  now rewrite Hm.
Qed.

(** X3: turns of the assistant play no part: a conversation with an
    assistant turn inserted anywhere yields the same context, and a
    conversation without any user turn yields the empty context. *)
Theorem assistant_turns_are_ignored :
  (forall before m after,
      role m = assistant ->
      extractContextFromConversation (before ++ m :: after)
      = extractContextFromConversation (before ++ after))
  /\
  (forall messages,
      (forall m, In m messages -> role m = assistant) ->
      extractContextFromConversation messages = emptyContext).
Proof.
  split.
  - intros before m after Hm. unfold extractContextFromConversation, extractWith.
    now rewrite (conversationText_skips_assistant before after m Hm).
  - intros messages Hall.
    assert (Htext : conversationText messages = EmptyString).
    { unfold conversationText.
      replace (List.filter (fun msg => Role_eqb (role msg) user) messages) with (@nil Message);
        [reflexivity|].
      induction messages as [|m messages IH]; [reflexivity|].
      cbn [List.filter]. rewrite (Hall m (or_introl eq_refl)). cbn [Role_eqb].
      apply IH. intros m' Hin. apply Hall. now right. }
    unfold extractContextFromConversation, extractWith. rewrite Htext.
    vm_compute. reflexivity.
Qed.

Lemma assistant_turns_are_ignored_witness :
  extractContextFromConversation
    [ {| role := assistant; content := "Looking for a romantic dinner for 6 people";
         timestamp := 0; recommendations := None |};
      userTurn "Actually just for 2" ]
  = extractContextFromConversation [userTurn "Actually just for 2"]
  /\
  extractContextFromConversation
    [ {| role := assistant; content := "A party of 12? Romantic!";
         timestamp := 0; recommendations := None |} ]
  = emptyContext.
Proof.
  split.
  - apply (proj1 assistant_turns_are_ignored [] _ [userTurn "Actually just for 2"]).
    reflexivity.
  - apply (proj2 assistant_turns_are_ignored).
    intros m [<- | []]. reflexivity.
Defined.

Lemma firstPatternSize_Some_inv (patterns : list (list Atom)) (text : string) (n : Z) :
  firstPatternSize patterns text = Some n ->
  exists pattern, In pattern patterns /\ patternSize text pattern = Some n.
Proof.
  induction patterns as [|p patterns IH]; cbn [firstPatternSize]; [discriminate|].
  destruct (patternSize text p) as [size|] eqn:Hp.
  - intros [= <-]. exists p. split; [now left | exact Hp].
  - intros H. destruct (IH H) as (q & Hin & Hq). exists q. split; [now right | exact Hq].
Qed.

Lemma firstKeywordMatch_vocabulary (table : list (string * list string))
      (text name : string) :
  firstKeywordMatch table text = Some name -> In name (List.map fst table).
Proof.
  induction table as [|[n keywords] table IH]; cbn [firstKeywordMatch]; [discriminate|].
  destruct (existsb _ keywords).
  - intros [= <-]. now left.
  - intros H. right. now apply IH.
Qed.

(** X4: whatever the conversation, an extracted group size lies
    between 1 and 100, an extracted mood is one of the five moods of
    the table and an extracted occasion one of its five occasions, and
    the extractor sets no other field. *)
Theorem extracted_values_are_bounded (messages : list Message) :
  let context := extractContextFromConversation messages in
  (forall n, groupSize context = Some n -> 1 <= n <= 100)
  /\ (forall m, mood context = Some m ->
                In m ["romantic"; "casual"; "energetic"; "quiet"; "upscale"])
  /\ (forall o, occasion context = Some o ->
                In o ["date night"; "business meeting"; "group hangout";
                      "family dinner"; "celebration"])
  /\ location context = None /\ timeOfDay context = None /\ weather context = None.
Proof.
  cbv zeta. unfold extractContextFromConversation, extractWith.
  cbn [groupSize mood occasion location timeOfDay weather].
  split; [|split; [|split]].
  - intros n. destruct (soloIndicator _).
    + intros [= <-]. lia.
    + intros H. apply firstPatternSize_Some_inv in H as (p & _ & Hp).
      apply ContextFacts.patternSize_Some in Hp as [_ Hr]. lia.
  - intros m H. apply (firstKeywordMatch_vocabulary moodKeywords _ m H).
  - intros o H. apply (firstKeywordMatch_vocabulary occasionKeywords _ o H).
  - auto.
Qed.

(** X5: extraction does not look at letter case: two conversations
    whose turns have the same speakers and the same contents up to the
    case of letters yield the same context. *)
Theorem extraction_ignores_case (messages messages' : list Message) :
  Forall2 (fun a b => role a = role b /\
                      toLowerCase (content a) = toLowerCase (content b))
          messages messages' ->
  extractContextFromConversation messages = extractContextFromConversation messages'.
Proof.
  intros H.
  assert (Htext : conversationText messages = conversationText messages').
  { unfold conversationText. f_equal.
    induction H as [|a b l l' [Hrole Hcontent] _ IH]; [reflexivity|].
    cbn [List.filter]. rewrite Hrole.
    destruct (Role_eqb (role b) user); [|exact IH].
    cbn [List.map]. now rewrite Hcontent, IH. }
  unfold extractContextFromConversation, extractWith. now rewrite Htext.
Qed.

Lemma extraction_ignores_case_witness :
  extractContextFromConversation [userTurn "A QUIET place, PARTY OF 4"]
  = extractContextFromConversation [userTurn "a quiet place, party of 4"].
Proof.
  apply extraction_ignores_case.
  constructor; [split; reflexivity | constructor].
Defined.

(** The loop over a keyword table stops at its first row with a
    keyword in the text. *)
Lemma firstKeywordMatch_first (text : string) (before : list (string * list string))
      (name : string) (keywords : list string) (after : list (string * list string)) :
  (forall row k, In row before -> In k (snd row) -> includes text k = false) ->
  (exists k, In k keywords /\ includes text k = true) ->
  firstKeywordMatch (before ++ (name, keywords) :: after) text = Some name.
Proof.
  intros Hbefore (k & Hk & Hin).
  induction before as [|[n ks] before IH]; cbn [app firstKeywordMatch].
  - replace (existsb (fun keyword => includes text keyword) keywords) with true;
      [reflexivity|].
    symmetry. apply existsb_exists. exists k. auto.
  - replace (existsb (fun keyword => includes text keyword) ks) with false.
    + apply IH. intros row k' Hrow. apply Hbefore. now right.
    + symmetry. apply not_true_is_false. intros He.
      apply existsb_exists in He as (k' & Hk' & Hin').
      rewrite (Hbefore (n, ks) k' (or_introl eq_refl) Hk') in Hin'. discriminate.
Qed.

Lemma firstKeywordMatch_none (text : string) (table : list (string * list string)) :
  (forall row k, In row table -> In k (snd row) -> includes text k = false) ->
  firstKeywordMatch table text = None.
Proof.
  induction table as [|[n ks] table IH]; intros H; cbn [firstKeywordMatch]; [reflexivity|].
  replace (existsb (fun keyword => includes text keyword) ks) with false.
  - apply IH. intros row k Hrow. apply H. now right.
  - symmetry. apply not_true_is_false. intros He.
    apply existsb_exists in He as (k & Hk & Hin).
    rewrite (H (n, ks) k (or_introl eq_refl) Hk) in Hin. discriminate.
Qed.

(** X6: the order of the keyword tables is a priority: the mood is
    that of the first row of the mood table one of whose keywords occurs
    in the lower-cased user text, whatever later rows would match, and
    no mood is set when no keyword of the table occurs; the occasion is
    resolved in the same way from its own table, independently. *)
Theorem keyword_tables_are_priorities (messages : list Message) :
  let text := conversationText messages in
  (forall before name keywords after,
      moodKeywords = (before ++ (name, keywords) :: after)%list ->
      (forall row k, In row before -> In k (snd row) -> includes text k = false) ->
      (exists k, In k keywords /\ includes text k = true) ->
      mood (extractContextFromConversation messages) = Some name)
  /\
  ((forall row k, In row moodKeywords -> In k (snd row) -> includes text k = false) ->
   mood (extractContextFromConversation messages) = None)
  /\
  (forall before name keywords after,
      occasionKeywords = (before ++ (name, keywords) :: after)%list ->
      (forall row k, In row before -> In k (snd row) -> includes text k = false) ->
      (exists k, In k keywords /\ includes text k = true) ->
      occasion (extractContextFromConversation messages) = Some name)
  /\
  ((forall row k, In row occasionKeywords -> In k (snd row) -> includes text k = false) ->
   occasion (extractContextFromConversation messages) = None).
Proof.
  intros text. unfold extractContextFromConversation, extractWith.
  cbn [mood occasion]. fold text.
  split; [|split; [|split]].
  - intros before name keywords after -> Hb Hk. now apply firstKeywordMatch_first.
  - apply firstKeywordMatch_none.
  - intros before name keywords after -> Hb Hk. now apply firstKeywordMatch_first.
  - apply firstKeywordMatch_none.
Qed.

(** "lively" (energetic) comes before "quiet" in the table. *)
Lemma keyword_tables_are_priorities_witness :
  mood (extractContextFromConversation
          [userTurn "Somewhere quiet, or maybe lively, for my family"])
  = Some "energetic".
Proof.
  refine (proj1 (keyword_tables_are_priorities
                   [userTurn "Somewhere quiet, or maybe lively, for my family"])
            [ ("romantic", ["romantic"; "date"; "intimate"; "cozy"; "candlelit"]);
              ("casual", ["casual"; "relaxed"; "laid-back"; "chill"]) ]
            "energetic" ["energetic"; "lively"; "vibrant"; "bustling"; "busy"]
            _ eq_refl _ _).
  - intros row k [<- | [<- | []]] Hk; cbn [snd In] in Hk;
      repeat (destruct Hk as [<- | Hk]; [vm_compute; reflexivity|]); destruct Hk.
  - exists "lively". split; [right; left; reflexivity | vm_compute; reflexivity].
Defined.

(** X7: the keyword "date" heads both tables, and keywords are matched
    as substrings: any user text in which the letters "date" occur, be
    it inside another word, is given the mood "romantic" and the
    occasion "date night". *)
Theorem date_sets_mood_and_occasion (messages : list Message) :
  includes (conversationText messages) "date" = true ->
  mood (extractContextFromConversation messages) = Some "romantic"
  /\ occasion (extractContextFromConversation messages) = Some "date night".
Proof.
  intros H. unfold extractContextFromConversation, extractWith. cbn [mood occasion].
  unfold moodKeywords, occasionKeywords. cbn [firstKeywordMatch existsb].
  rewrite H. rewrite !orb_true_r. cbn [orb]. split; reflexivity.
Qed.

Lemma date_sets_mood_and_occasion_witness :
  mood (extractContextFromConversation
          [userTurn "Any update on the business lunch for 12 people?"])
  = Some "romantic"
  /\ occasion (extractContextFromConversation
                 [userTurn "Any update on the business lunch for 12 people?"])
     = Some "date night".
Proof.
  apply date_sets_mood_and_occasion. vm_compute. reflexivity.
Defined.

(** *** Weather *)

Section WeatherLookup.
Context {World : Type}.
Context (weather_get : ContextService.AxiosInstance -> string -> WeatherParams -> World ->
                       Completion Thrown OpenWeatherResponse * World).

(** X8: with a key configured, one call of [getWeatherWithFallback]
    sends exactly one weather request, for the caller's coordinates in
    imperial units; when it succeeds the weather is read from the first
    entry of the reply, and a reply without entries gives no weather. *)
Theorem weather_lookup_reads_first_entry
        (self : ContextService.t) (client : ContextService.AxiosInstance)
        (key : string) (location : LocationContext) (sys : Sys World) :
  weatherClient self = Some client -> weatherApiKey self = Some key ->
  key <> EmptyString ->
  let params := {| wp_lat := lc_lat location; wp_lon := lc_lng location;
                   appid := key; units := "imperial" |} in
  let reply := weather_get client "/weather" params (world sys) in
  let result := getWeatherWithFallback weather_get self location sys in
  world (snd result) = snd reply
  /\ requests (log (snd result)) = S (requests (log sys))
  /\ (forall response first rest,
         fst reply = Return response -> ow_weather response = first :: rest ->
         fst result = Some {| condition := we_main first;
                              temperature := temp (ow_main response);
                              wc_description := we_description first |})
  /\ (forall response,
         fst reply = Return response -> ow_weather response = [] ->
         fst result = None).
Proof.
  intros Hc Hk Hne. cbv zeta. unfold getWeatherWithFallback. rewrite Hc, Hk.
  destruct key as [|ch key]; [contradiction|]. cbn [truthy_string].
  destruct (weather_get client "/weather" _ (world sys)) as [[response|e] w'].
  - destruct (ow_weather response) as [|first rest] eqn:Hw; cbn [fst snd world log record].
    + split; [reflexivity|]. split; [rewrite !YelpFacts.requests_app; cbn; lia|].
      split.
      * intros response' first rest [= <-]. rewrite Hw. discriminate.
      * reflexivity.
    + split; [reflexivity|]. split; [rewrite YelpFacts.requests_app; cbn; lia|].
      split.
      * intros response' first' rest' [= <-]. rewrite Hw. now intros [= <- <-].
      * intros response' [= <-]. rewrite Hw. discriminate.
  - cbn [fst snd world log record].
    split; [reflexivity|]. split; [rewrite !YelpFacts.requests_app; cbn; lia|].
    split.
    + intros response first rest [=].
    + intros response [=].
Qed.
End WeatherLookup.

Lemma weather_lookup_reads_first_entry_witness :
  fst (getWeatherWithFallback Demo.weatherUp (constructor (Some "owm-key") None)
         Demo.sanFrancisco Demo.idle)
  = Some {| condition := "Rain"; temperature := 54.5%float;
            wc_description := "light rain" |}
  /\ requests (log (snd (getWeatherWithFallback Demo.weatherUp
                           (constructor (Some "owm-key") None)
                           Demo.sanFrancisco Demo.idle))) = 1%nat.
Proof.
  destruct (weather_lookup_reads_first_entry Demo.weatherUp
              (constructor (Some "owm-key") None)
              {| ContextService.baseURL := "https://api.openweathermap.org/data/2.5";
                 ContextService.timeout := 5000 |}
              "owm-key" Demo.sanFrancisco Demo.idle eq_refl eq_refl)
    as (_ & Hcount & Hfirst & _); [discriminate|].
  split; [|exact Hcount].
  refine (Hfirst _ _ _ eq_refl eq_refl).
Defined.

End ContextExtras.

(** ** Further properties of the Yelp client *)

Module YelpExtras.
Import Js YelpService YelpFacts.

(** *** Keys and kinds *)

Lemma key_kinds (stringify : KeyParams -> string) :
  (forall message context k,
      String.prefix (kindPrefix k)
                    (generateCacheKey stringify "chat" (ChatParams message context)) = true
      <-> k = KChat)
  /\ (forall placeId k,
         String.prefix (kindPrefix k)
                       (generateCacheKey stringify "place" (PlaceParams placeId)) = true
         <-> k = KPlace)
  /\ (forall query location filters k,
         String.prefix (kindPrefix k)
                       (generateCacheKey stringify "search"
                                         (SearchKeyParams query location filters)) = true
         <-> k = KSearch).
Proof.
  repeat apply conj; intros; unfold generateCacheKey;
    destruct (stringify _); destruct k; split; intros H;
    try reflexivity; discriminate H.
Qed.

Lemma wellTyped_insert (c : gmap string CacheEntry) (key : string) (entry : CacheEntry) :
  wellTyped c ->
  (forall k, String.prefix (kindPrefix k) key = true -> kindOfValue (entry_data entry) = k) ->
  wellTyped (<[key := entry]> c).
Proof.
  intros Hc Hfit key' entry' k Hlook Hp.
  destruct (decide (key = key')) as [<- | Hne].
  - rewrite lookup_insert_eq in Hlook. injection Hlook as <-. now apply Hfit.
  - rewrite lookup_insert_ne in Hlook by exact Hne. now apply (Hc key' entry' k).
Qed.

Lemma wellTyped_delete (c : gmap string CacheEntry) (key : string) :
  wellTyped c -> wellTyped (delete key c).
Proof.
  intros Hc key' entry' k Hlook Hp.
  destruct (decide (key = key')) as [<- | Hne].
  - rewrite lookup_delete_eq in Hlook. discriminate.
  - rewrite lookup_delete_ne in Hlook by exact Hne. now apply (Hc key' entry' k).
Qed.

Section Client.
Context {World : Type}.
Context (Date_now : World -> Z).
Context (sleep : Z -> World -> World).
Context (JSON_stringify : KeyParams -> string).
Context (client_post_chat : AxiosInstance -> string -> YelpChatRequest -> World ->
                            Completion Thrown YelpChatResponse * World).
Context (client_get_business : AxiosInstance -> string -> World ->
                               Completion Thrown YelpPlaceDetailsResponse * World).
Context (client_get_search : AxiosInstance -> string -> SearchParams -> World ->
                             Completion Thrown YelpSearchResponse * World).

Lemma cachedCall_typed {T : Type} (key : string) (kind : Kind)
      (requestFn : AxiosInstance -> World -> Completion Thrown T * World)
      (normalise : T -> Value) (context : string) (self : t) (sys : Sys World) :
  String.prefix (kindPrefix kind) key = true ->
  (forall k, String.prefix (kindPrefix k) key = true -> k = kind) ->
  (forall response, kindOfValue (normalise response) = kind) ->
  wellTyped (cache self) ->
  let out := cachedCall Date_now sleep key requestFn normalise context self sys in
  wellTyped (cache (snd (fst out))) /\
  forall v, fst (fst out) = Return v -> kindOfValue v = kind.
Proof.
  intros Hkey Honly Hnorm Hwt. cbv zeta.
  destruct (cachedCall_cases Date_now sleep key requestFn normalise context self sys)
    as [_ [(entry & Hentry & Hr & Hs & _) | [(response & Hr & Hc) | (err & Hr & Hc)]]].
  - rewrite Hs, Hr. split; [exact Hwt|]. intros v [= <-]. now apply (Hwt key entry kind).
  - rewrite Hc, Hr. split.
    + apply wellTyped_insert; [now apply wellTyped_delete|].
      intros k Hk. cbn [entry_data]. rewrite (Honly k Hk). apply Hnorm.
    + intros v [= <-]. apply Hnorm.
  - rewrite Hc, Hr. split; [now apply wellTyped_delete | discriminate].
Qed.

(** X9: the cache never hands an operation a value of another
    operation's kind.  The empty cache of a new service is well typed,
    every operation and [clearCache] keep a well-typed cache well typed,
    and on a well-typed cache [sendChatMessage] returns a chat result,
    [getPlaceDetails] a place and [searchPlaces] a list of places,
    from the cache or from the network, whatever the serializer. *)
Theorem cache_values_keep_their_kind :
  wellTyped (∅ : gmap string CacheEntry)
  /\ (forall self, wellTyped (cache (clearCache self)))
  /\ (forall message conversationHistory context self sys,
         wellTyped (cache self) ->
         let out := sendChatMessage Date_now sleep JSON_stringify client_post_chat
                                    message conversationHistory context self sys in
         wellTyped (cache (snd (fst out))) /\
         forall v, fst (fst out) = Return v -> exists r, v = VChat r)
  /\ (forall placeId self sys,
         wellTyped (cache self) ->
         let out := getPlaceDetails Date_now sleep JSON_stringify client_get_business
                                    placeId self sys in
         wellTyped (cache (snd (fst out))) /\
         forall v, fst (fst out) = Return v -> exists p, v = VPlace p)
  /\ (forall query location filters self sys,
         wellTyped (cache self) ->
         let out := searchPlaces Date_now sleep JSON_stringify client_get_search
                                 query location filters self sys in
         wellTyped (cache (snd (fst out))) /\
         forall v, fst (fst out) = Return v -> exists ps, v = VPlaces ps).
Proof.
  destruct (key_kinds JSON_stringify) as (Hchat & Hplace & Hsearch).
  split; [|split; [|split; [|split]]].
  - intros key entry k H. rewrite lookup_empty in H. discriminate.
  - intros self key entry k H. cbn [clearCache cache] in H.
    rewrite lookup_empty in H. discriminate.
  - intros message conversationHistory context self sys Hwt. cbv zeta.
    rewrite sendChatMessage_shape.
    match goal with
    | |- context [cachedCall _ _ ?key ?rq ?norm ?ctx self sys] =>
        destruct (cachedCall_typed key KChat rq norm ctx self sys) as [H1 H2];
          [now apply Hchat | intros k; apply Hchat | reflexivity | exact Hwt |]
    end.
    split; [exact H1|]. intros v Hv. specialize (H2 v Hv).
    destruct v; try discriminate. eauto.
  - intros placeId self sys Hwt. cbv zeta. rewrite getPlaceDetails_shape.
    match goal with
    | |- context [cachedCall _ _ ?key ?rq ?norm ?ctx self sys] =>
        destruct (cachedCall_typed key KPlace rq norm ctx self sys) as [H1 H2];
          [now apply Hplace | intros k; apply Hplace | reflexivity | exact Hwt |]
    end.
    split; [exact H1|]. intros v Hv. specialize (H2 v Hv).
    destruct v; try discriminate. eauto.
  - intros query location filters self sys Hwt. cbv zeta. rewrite searchPlaces_shape.
    match goal with
    | |- context [cachedCall _ _ ?key ?rq ?norm ?ctx self sys] =>
        destruct (cachedCall_typed key KSearch rq norm ctx self sys) as [H1 H2];
          [now apply Hsearch | intros k; apply Hsearch | reflexivity | exact Hwt |]
    end.
    split; [exact H1|]. intros v Hv. specialize (H2 v Hv).
    destruct v; try discriminate. eauto.
Qed.

(** X10: an operation touches no cache entry but its own: after any
    call, successful or not, every other key holds what it held before,
    and the HTTP client of the service is the same. *)
Theorem operations_touch_only_their_key :
  forEachOperation Date_now sleep JSON_stringify client_post_chat client_get_business
                   client_get_search
    (fun key op =>
       forall self sys,
         client (snd (fst (op self sys))) = client self /\
         forall other, other <> key ->
                       cache (snd (fst (op self sys))) !! other = cache self !! other).
Proof.
  apply forEachOperation_cachedCall.
  intros T key requestFn normalise context self sys.
  destruct (cachedCall_cases Date_now sleep key requestFn normalise context self sys)
    as [Hclient [(entry & _ & _ & Hs & _) | [(response & _ & Hc) | (err & _ & Hc)]]].
  - split; [exact Hclient|]. intros other _. now rewrite Hs.
  - split; [exact Hclient|]. intros other Hne. rewrite Hc.
    rewrite lookup_insert_ne by congruence. now rewrite lookup_delete_ne by congruence.
  - split; [exact Hclient|]. intros other Hne. rewrite Hc.
    now rewrite lookup_delete_ne by congruence.
Qed.

(** X11: a failure is never cached.  When an operation throws, a
    request was sent, the cache holds no entry under the operation's key
    afterwards, and the next identical call sends a request again,
    whenever it is made. *)
Theorem failures_are_not_cached :
  forEachOperation Date_now sleep JSON_stringify client_post_chat client_get_business
                   client_get_search
    (fun key op =>
       forall self sys err self' sys',
         op self sys = (Throw err, self', sys') ->
         (exists rest, log sys' = (log sys ++ EvRequest :: rest)%list)
         /\ cache self' !! key = None
         /\ forall sys2, sendsRequest op self' sys2).
Proof.
  apply forEachOperation_cachedCall.
  intros T key requestFn normalise context self sys err self' sys' Hop.
  pose proof (cachedCall_discipline Date_now sleep key requestFn normalise context)
    as (_ & Hmiss & _).
  assert (Hnone : cache self' !! key = None).
  { destruct (cachedCall_cases Date_now sleep key requestFn normalise context self sys)
      as [_ [(entry & _ & Hr & _) | [(response & Hr & _) | (err' & _ & Hc)]]];
      rewrite Hop in *; cbn [fst snd] in *; try discriminate.
    rewrite Hc. apply lookup_delete_eq. }
  split; [|split; [exact Hnone|]].
  - assert (Hstale : cache self !! key = None \/
                     exists entry, cache self !! key = Some entry /\
                                   CACHE_TTL < Date_now (world sys) - entry_timestamp entry).
    { destruct (cache self !! key) as [entry|] eqn:Hentry; [|now left].
      right. exists entry. split; [reflexivity|].
      destruct (Z.lt_ge_cases CACHE_TTL (Date_now (world sys) - entry_timestamp entry))
        as [Hlt | Hge]; [exact Hlt|].
      rewrite (proj1 (cachedCall_discipline Date_now sleep key requestFn normalise context)
                 self sys entry Hentry) in Hop by lia.
      discriminate Hop. }
    destruct (Hmiss self sys Hstale) as (r & s1 & s2 & rest & Heq & Hlog & _).
    rewrite Hop in Heq. injection Heq as <- <- <-. now exists rest.
  - intros sys2. destruct (Hmiss self' sys2 (or_introl Hnone))
      as (r & s1 & s2 & rest & Heq & Hlog & _).
    now exists r, s1, s2, rest.
Qed.

(** X12: after [clearCache] the cache is empty and the next call of
    any operation sends a request, however recent the entries were. *)
Theorem clearCache_forces_requests :
  (forall self, cache (clearCache self) = ∅ /\ client (clearCache self) = client self)
  /\
  forEachOperation Date_now sleep JSON_stringify client_post_chat client_get_business
                   client_get_search
    (fun key op => forall self sys, sendsRequest op (clearCache self) sys).
Proof.
  split; [intros self; split; reflexivity|].
  apply forEachOperation_cachedCall.
  intros T key requestFn normalise context self sys.
  pose proof (cachedCall_discipline Date_now sleep key requestFn normalise context)
    as (_ & Hmiss & _).
  destruct (Hmiss (clearCache self) sys) as (r & s1 & s2 & rest & Heq & Hlog & _).
  - left. cbn [clearCache cache]. apply lookup_empty.
  - now exists r, s1, s2, rest.
Qed.

(** X13: the conversation history is no part of the chat cache key.
    Once a chat call has returned an answer, a call with the same
    message and context but any other history, made while the entry is
    at most five minutes old, returns that same answer without sending
    the new history anywhere. *)
Theorem chat_cache_ignores_history
        (message : string) (history history' : list Message)
        (context : option ConversationContext)
        (self self' : t) (sys sys' : Sys World) (v : Value) :
  sendChatMessage Date_now sleep JSON_stringify client_post_chat
                  message history context self sys = (Return v, self', sys') ->
  exists entry,
    cache self' !! generateCacheKey JSON_stringify "chat" (ChatParams message context)
    = Some entry
    /\ forall sys2,
         Date_now (world sys2) - entry_timestamp entry <= CACHE_TTL ->
         sendChatMessage Date_now sleep JSON_stringify client_post_chat
                         message history' context self' sys2
         = (Return v, self', sys2).
Proof.
  intros Hcall. rewrite sendChatMessage_shape in Hcall.
  match type of Hcall with
  | cachedCall _ _ ?key ?rq ?norm ?ctx _ _ = _ =>
      destruct (proj2 (proj2 (cachedCall_discipline Date_now sleep key rq norm ctx))
                  self sys v self' sys' Hcall) as (entry & Hentry & Hdata & _)
  end.
  exists entry. split; [exact Hentry|]. intros sys2 Hage.
  rewrite sendChatMessage_shape, <- Hdata.
  match goal with
  | |- cachedCall _ _ ?key ?rq ?norm ?ctx _ _ = _ =>
      apply (proj1 (cachedCall_discipline Date_now sleep key rq norm ctx)
               self' sys2 entry Hentry Hage)
  end.
Qed.

(** X14: the mood and the name of the location never reach the remote
    service: two contexts that agree on coordinates, time of day,
    weather, group size and occasion give the same chat request. *)
Theorem mood_is_not_sent (message : string) (history : list Message)
        (c c' : ConversationContext) :
  (match location c, location c' with
   | Some l, Some l' => loc_lat l = loc_lat l' /\ loc_lng l = loc_lng l'
   | None, None => True
   | _, _ => False
   end) ->
  timeOfDay c = timeOfDay c' -> weather c = weather c' ->
  groupSize c = groupSize c' -> occasion c = occasion c' ->
  chatRequest message history (Some c) = chatRequest message history (Some c').
Proof.
  intros Hloc Ht Hw Hg Ho. unfold chatRequest. f_equal. cbn [fmap option_fmap option_map].
  f_equal. unfold formatContext. rewrite Ht, Hw, Hg, Ho. f_equal.
  destruct (location c) as [l|], (location c') as [l'|]; try contradiction; [|reflexivity].
  destruct Hloc as [-> ->]. reflexivity.
Qed.

(** *** The retry loop in general *)

Lemma retryLoop_all_fail {T : Type} (requestFn : World -> Completion Thrown T * World)
      (maxRetries : Z) :
  (forall w, exists e w', requestFn w = (Throw e, w') /\ retryable e) ->
  forall remaining attempt lastError sys,
    maxRetries = attempt + Z.of_nat (S remaining) ->
    exists e sys',
      retryLoop sleep requestFn maxRetries (S remaining) attempt lastError sys
      = (Throw e, sys')
      /\ retryable e
      /\ (exists w, requestFn w = (Throw e, world sys'))
      /\ log sys' = (log sys ++ backoffTrace (S remaining) attempt)%list.
Proof.
  intros Hfail. induction remaining as [|remaining IH]; intros attempt lastError sys Hmax.
  - rewrite retryLoop_step.
    destruct (Hfail (world sys)) as (e & w' & Hreq & He). rewrite Hreq.
    rewrite (retryable_not_client e He). cbv zeta.
    destruct (Z.ltb_spec attempt (maxRetries - 1)); [lia|].
    eexists _, _. split; [reflexivity|]. split; [exact He|].
    split; [exists (world sys); exact Hreq | reflexivity].
  - rewrite retryLoop_step.
    destruct (Hfail (world sys)) as (e & w' & -> & He).
    rewrite (retryable_not_client e He). cbv zeta.
    destruct (Z.ltb_spec attempt (maxRetries - 1)); [|lia].
    match goal with
    | |- context [retryLoop _ _ _ _ _ _ ?s] =>
        destruct (IH (attempt + 1) e s) as (e' & sys' & Heq & He' & Hown & Hlog); [lia|]
    end.
    exists e', sys'. split; [exact Heq|]. split; [exact He'|]. split; [exact Hown|].
    rewrite Hlog. cbn [log doSleep]. rewrite <- !List.app_assoc. reflexivity.
Qed.

Lemma sleepTotal_backoff (n : nat) :
  forall attempt, 0 <= attempt ->
    sleepTotal (backoffTrace (S n) attempt)
    = (2 ^ (attempt + Z.of_nat n) - 2 ^ attempt) * 1000.
Proof.
  induction n as [|n IH]; intros attempt Ha.
  - cbn [backoffTrace sleepTotal]. rewrite Z.add_0_r. lia.
  - change (backoffTrace (S (S n)) attempt)
      with (EvRequest :: EvSleep (2 ^ attempt * 1000) :: backoffTrace (S n) (attempt + 1)).
    cbn [sleepTotal]. rewrite IH by lia.
    replace (attempt + Z.of_nat (S n)) with (attempt + 1 + Z.of_nat n) by lia.
    rewrite (Z.pow_add_r 2 attempt 1) by lia. lia.
Qed.

(** X15: the back-off for any budget.  When every attempt fails with a
    failure that carries no status or a status of 500 or more, a budget
    of [n >= 1] gives exactly [n] requests with a sleep between two
    consecutive ones, of 1000 ms first and doubled each time, none after
    the last request; the failure thrown is the one the request
    function gave at the last attempt, in the world that attempt left,
    and the loop has slept [(2^(n-1) - 1) * 1000] ms in all.  With a
    budget of 0 or less nothing is requested and [null] is thrown. *)
Theorem backoff_doubles_for_any_budget {T : Type}
        (requestFn : World -> Completion Thrown T * World) (sys : Sys World) :
  (forall n,
      (forall w, exists e w', requestFn w = (Throw e, w') /\ retryable e) ->
      (0 < n)%nat ->
      exists e sys',
        retryRequest sleep requestFn (Z.of_nat n) sys = (Throw e, sys')
        /\ retryable e
        /\ (exists w, requestFn w = (Throw e, world sys'))
        /\ log sys' = (log sys ++ backoffTrace n 0)%list
        /\ requests (backoffTrace n 0) = n
        /\ sleepTotal (backoffTrace n 0) = (2 ^ (Z.of_nat n - 1) - 1) * 1000)
  /\
  (forall maxRetries,
      maxRetries <= 0 ->
      retryRequest sleep requestFn maxRetries sys = (Throw ThrownNull, sys)).
Proof.
  split.
  - intros [|n] Hfail Hn; [lia|].
    unfold retryRequest. rewrite Nat2Z.id.
    destruct (retryLoop_all_fail requestFn (Z.of_nat (S n)) Hfail n 0 ThrownNull sys)
      as (e & sys' & Heq & He & Hown & Hlog); [lia|].
    exists e, sys'. split; [exact Heq|]. split; [exact He|]. split; [exact Hown|].
    split; [exact Hlog|]. split.
    + clear. generalize 0. induction n as [|n IH]; intros a; [reflexivity|].
      change (backoffTrace (S (S n)) a)
        with ([EvRequest; EvSleep (2 ^ a * 1000)] ++ backoffTrace (S n) (a + 1))%list.
      rewrite requests_app, IH. reflexivity.
    + rewrite sleepTotal_backoff by lia.
      replace (Z.of_nat (S n) - 1) with (0 + Z.of_nat n) by lia. reflexivity.
  - intros maxRetries Hle. unfold retryRequest.
    replace (Z.to_nat maxRetries) with 0%nat by lia. reflexivity.
Qed.

(** X16: whatever the request function does, the wrapper with its
    budget of three leaves one of three traces: one request; two
    requests 1000 ms apart; three requests 1000 ms and 2000 ms apart.
    It therefore never sleeps after its last request, and never more
    than 3000 ms in all. *)
Theorem retry_traces_of_budget_three {T : Type}
        (requestFn : World -> Completion Thrown T * World) (sys : Sys World) :
  exists l,
    log (snd (retryRequest sleep requestFn 3 sys)) = (log sys ++ l)%list
    /\ (l = [EvRequest]
        \/ l = [EvRequest; EvSleep 1000; EvRequest]
        \/ l = [EvRequest; EvSleep 1000; EvRequest; EvSleep 2000; EvRequest])
    /\ sleepTotal l <= 3000.
Proof.
  unfold retryRequest. change (Z.to_nat 3) with 3%nat.
  rewrite retryLoop_step.
  destruct (requestFn (world sys)) as [[d|e1] w1]; cbv zeta;
    [exists [EvRequest]; cbn; split; [reflexivity | split; [auto | lia]]|].
  destruct (isClientError e1);
    [exists [EvRequest]; cbn; split; [reflexivity | split; [auto | lia]]|].
  change (0 <? 3 - 1) with true. change (2 ^ 0 * 1000) with 1000.
  rewrite retryLoop_step. cbn [doSleep world log].
  destruct (requestFn (sleep 1000 w1)) as [[d|e2] w2]; cbv zeta;
    [exists [EvRequest; EvSleep 1000; EvRequest]; cbn [snd log];
     rewrite <- !List.app_assoc; split; [reflexivity | split; [auto | cbn; lia]]|].
  destruct (isClientError e2);
    [exists [EvRequest; EvSleep 1000; EvRequest]; cbn [snd log];
     rewrite <- !List.app_assoc; split; [reflexivity | split; [auto | cbn; lia]]|].
  change (0 + 1 <? 3 - 1) with true. change (2 ^ (0 + 1) * 1000) with 2000.
  rewrite retryLoop_step. cbn [doSleep world log].
  exists [EvRequest; EvSleep 1000; EvRequest; EvSleep 2000; EvRequest].
  split; [|split; [auto | cbn; lia]].
  destruct (requestFn (sleep 2000 w2)) as [[d|e3] w3]; cbv zeta;
    [cbn [snd log]; rewrite <- !List.app_assoc; reflexivity|].
  change (0 + 1 + 1 <? 3 - 1) with false. cbn [retryLoop].
  destruct (isClientError e3); cbn [snd log]; rewrite <- !List.app_assoc; reflexivity.
Qed.

(** X17: the first successful attempt ends the loop: its data is
    returned at once, after one request, or after a retried failure and
    a 1000 ms sleep, or after two and a further 2000 ms sleep, with no
    request or sleep after it. *)
Theorem first_success_is_returned {T : Type}
        (requestFn : World -> Completion Thrown T * World) (sys : Sys World) :
  (forall d w1,
      requestFn (world sys) = (Return d, w1) ->
      retryRequest sleep requestFn 3 sys
      = (Return d, {| world := w1; log := log sys ++ [EvRequest] |}))
  /\
  (forall e1 w1 d w2,
      requestFn (world sys) = (Throw e1, w1) -> retryable e1 ->
      requestFn (sleep 1000 w1) = (Return d, w2) ->
      retryRequest sleep requestFn 3 sys
      = (Return d, {| world := w2;
                      log := log sys ++ [EvRequest; EvSleep 1000; EvRequest] |}))
  /\
  (forall e1 w1 e2 w2 d w3,
      requestFn (world sys) = (Throw e1, w1) -> retryable e1 ->
      requestFn (sleep 1000 w1) = (Throw e2, w2) -> retryable e2 ->
      requestFn (sleep 2000 w2) = (Return d, w3) ->
      retryRequest sleep requestFn 3 sys
      = (Return d, {| world := w3;
                      log := log sys ++ [EvRequest; EvSleep 1000; EvRequest;
                                         EvSleep 2000; EvRequest] |})).
Proof.
  unfold retryRequest. change (Z.to_nat 3) with 3%nat. split; [|split].
  - intros d w1 H1. rewrite retryLoop_step, H1. reflexivity.
  - intros e1 w1 d w2 H1 R1 H2.
    rewrite retryLoop_step, H1, (retryable_not_client e1 R1). cbv zeta.
    change (0 <? 3 - 1) with true. change (2 ^ 0 * 1000) with 1000.
    rewrite retryLoop_step. cbn [doSleep world log]. rewrite H2.
    rewrite <- !List.app_assoc. reflexivity.
  - intros e1 w1 e2 w2 d w3 H1 R1 H2 R2 H3.
    rewrite retryLoop_step, H1, (retryable_not_client e1 R1). cbv zeta.
    change (0 <? 3 - 1) with true. change (2 ^ 0 * 1000) with 1000.
    rewrite retryLoop_step. cbn [doSleep world log].
    rewrite H2, (retryable_not_client e2 R2). cbv zeta.
    change (0 + 1 <? 3 - 1) with true. change (2 ^ (0 + 1) * 1000) with 2000.
    rewrite retryLoop_step. cbn [doSleep world log]. rewrite H3.
    rewrite <- !List.app_assoc. reflexivity.
Qed.

(** *** Search *)

(** X18: the parameters of a search request.  The limit is the
    caller's when it is set and not 0, and 20 otherwise, so it is never
    0; a radius of 0 is left out like an unset one; a category or price
    filter that is unset or an empty list is left out, and otherwise
    sent as its elements joined by commas; the query and the
    coordinates are passed on as they are. *)
Theorem search_parameters (query : string) (location : Coordinates)
        (filters : option Filters) :
  let params := searchParams query location filters in
  sp_term params = query
  /\ sp_latitude params = lat location /\ sp_longitude params = lng location
  /\ sp_limit params <> 0
  /\ (forall n, filters ≫= f_limit = Some n -> n <> 0 -> sp_limit params = n)
  /\ (filters ≫= f_limit = None \/ filters ≫= f_limit = Some 0 -> sp_limit params = 20)
  /\ sp_radius params <> Some 0
  /\ (forall r, filters ≫= f_radius = Some r -> r <> 0 -> sp_radius params = Some r)
  /\ (filters ≫= f_radius = None \/ filters ≫= f_radius = Some 0 ->
      sp_radius params = None)
  /\ (filters ≫= f_categories = None \/ filters ≫= f_categories = Some [] ->
      sp_categories params = None)
  /\ (forall c cs, filters ≫= f_categories = Some (c :: cs) ->
                   sp_categories params = Some (join "," (c :: cs)))
  /\ (filters ≫= f_price = None \/ filters ≫= f_price = Some [] ->
      sp_price params = None)
  /\ (forall p ps, filters ≫= f_price = Some (p :: ps) ->
                   sp_price params = Some (join "," (p :: ps))).
Proof.
  cbv zeta. unfold searchParams.
  cbn [sp_term sp_latitude sp_longitude sp_limit sp_radius sp_categories sp_price].
  repeat apply conj; try reflexivity.
  - destruct (filters ≫= f_limit) as [n|]; [|discriminate].
    unfold truthy_Z. destruct (Z.eqb_spec n 0); [discriminate | assumption].
  - intros n -> Hn. unfold truthy_Z. now destruct (Z.eqb_spec n 0).
  - intros [-> | ->]; reflexivity.
  - destruct (filters ≫= f_radius) as [r|]; [|discriminate].
    unfold truthy_Z. destruct (Z.eqb_spec r 0); cbn [negb]; [discriminate|].
    intros [= H]. contradiction.
  - intros r -> Hr. unfold truthy_Z. now destruct (Z.eqb_spec r 0).
  - intros [-> | ->]; reflexivity.
  - intros [-> | ->]; reflexivity.
  - intros c cs ->. reflexivity.
  - intros [-> | ->]; reflexivity.
  - intros p ps ->. reflexivity.
Qed.

Lemma formatSearchResult_lookup (remote : list YelpBusiness) :
  forall (i : nat) (b : YelpBusiness),
    remote !! i = Some b ->
    List.map formatSearchResult remote !! i = Some (formatSearchResult b).
Proof.
  induction remote as [|x remote IH]; intros [|i] b Hi; try discriminate.
  - now injection Hi as ->.
  - apply (IH i b Hi).
Qed.

(** X19: when the cache does not answer and the remote search
    succeeds, [searchPlaces] returns one place per remote business, in
    the remote order; each keeps the business's id, name, rating and
    category titles, has no opening hours, and has the business's image
    as its only photo, or no photo when the image URL is empty. *)
Theorem search_results_follow_the_reply
        (query : string) (location : Coordinates) (filters : option Filters)
        (self : t) (sys sys' : Sys World) (response : YelpSearchResponse) :
  fst (getFromCache Date_now
         (generateCacheKey JSON_stringify "search" (SearchKeyParams query location filters))
         self sys) = None ->
  retryRequest sleep
    (client_get_search (client self) "/v3/businesses/search"
                       (searchParams query location filters)) 3 sys
  = (Return response, sys') ->
  exists places self',
    searchPlaces Date_now sleep JSON_stringify client_get_search
                 query location filters self sys
    = (Return (VPlaces places), self', sys')
    /\ length places = length (businesses response)
    /\ forall (i : nat) (b : YelpBusiness),
         businesses response !! i = Some b ->
         exists p, places !! i = Some p
                   /\ place_placeId p = b_id b /\ place_name p = b_name b
                   /\ place_rating p = b_rating b
                   /\ place_categories p = List.map title (b_categories b)
                   /\ place_hours p = None
                   /\ (b_image_url b = EmptyString -> place_photos p = [])
                   /\ (b_image_url b <> EmptyString -> place_photos p = [b_image_url b]).
Proof.
  intros Hmiss Hretry. unfold searchPlaces.
  destruct (getFromCache Date_now _ self sys) as [cached self1] eqn:Hget.
  cbn [fst] in Hmiss. subst cached.
  assert (Hclient : client self1 = client self).
  { unfold getFromCache in Hget.
    destruct (cache self !! _) as [entry|]; [destruct (_ <? _)|];
      try discriminate Hget; injection Hget as <-; reflexivity. }
  rewrite Hclient, Hretry.
  eexists _, _. split; [reflexivity|]. split; [apply List.length_map|].
  intros i b Hb. exists (formatSearchResult b).
  split; [now apply formatSearchResult_lookup|].
  unfold formatSearchResult.
  cbn [place_placeId place_name place_rating place_categories place_hours place_photos].
  repeat apply conj; try reflexivity.
  - intros ->. reflexivity.
  - intros Hne. destruct (b_image_url b); [contradiction | reflexivity].
Qed.

End Client.

(** Four attempts that all time out: sleeps of 1, 2 and 4 seconds. *)
Lemma backoff_doubles_for_any_budget_witness :
  exists e sys',
    retryRequest (fun (ms : Z) (w : unit) => w)
                 (fun w : unit => (@Throw Thrown nat Demo.timeoutError, w)) 4 Demo.idle
    = (Throw e, sys')
    /\ log sys' = [EvRequest; EvSleep 1000; EvRequest; EvSleep 2000; EvRequest;
                   EvSleep 4000; EvRequest]
    /\ sleepTotal (log sys') = 7000.
Proof.
  destruct (proj1 (backoff_doubles_for_any_budget
                     (fun (ms : Z) (w : unit) => w)
                     (fun w : unit => (@Throw Thrown nat Demo.timeoutError, w)) Demo.idle)
              4%nat)
    as (e & sys' & Hcall & _ & _ & Hlog & _ & _).
  - intros w. exists Demo.timeoutError, w. split; [reflexivity | left; reflexivity].
  - lia.
  - exists e, sys'. split; [exact Hcall|]. split; [exact Hlog|]. rewrite Hlog. reflexivity.
Defined.

(** A timeout, then an answer. *)
Lemma first_success_is_returned_witness :
  retryRequest Demo.sleep Demo.request 3
    (Demo.start [Throw Demo.timeoutError; Return 7; Return 8])
  = (Return 7,
     {| world := {| Demo.now := 1240; Demo.replies := [Return 8] |};
        log := [EvRequest; EvSleep 1000; EvRequest] |}).
Proof.
  apply (proj1 (proj2 (first_success_is_returned Demo.sleep Demo.request
                         (Demo.start [Throw Demo.timeoutError; Return 7; Return 8])))
           Demo.timeoutError
           {| Demo.now := 120; Demo.replies := [Return 7; Return 8] |}
           7 {| Demo.now := 1240; Demo.replies := [Return 8] |}).
  - reflexivity.
  - left. reflexivity.
  - reflexivity.
Defined.

(** A second call, five minutes later and with a history the first
    call did not have, is answered from the cache. *)
Lemma chat_cache_ignores_history_witness :
  sendChatMessage Demo.Date_now Demo.sleep Demo.stringify Demo.post_chat
    "table for two" [userTurn "We are vegetarian"] None
    Demo.warmService (Demo.later 300120)
  = (Return (VChat {| cr_response := "Here are some ideas"; cr_recommendations := [] |}),
     Demo.warmService, Demo.later 300120).
Proof.
  destruct (chat_cache_ignores_history Demo.Date_now Demo.sleep Demo.stringify
              Demo.post_chat "table for two" [] [userTurn "We are vegetarian"] None
              Demo.service Demo.warmService
              (Demo.start [Return (Demo.chatReply None)])
              {| world := {| Demo.now := 120; Demo.replies := [] |}; log := [EvRequest] |}
              (VChat {| cr_response := "Here are some ideas"; cr_recommendations := [] |})
              eq_refl)
    as (entry & Hentry & Hagain).
  apply Hagain.
  vm_compute in Hentry. injection Hentry as <-. vm_compute. discriminate.
Defined.

Lemma mood_is_not_sent_witness :
  chatRequest "table for two" [] (Some (fst Demo.twoContexts))
  = chatRequest "table for two" [] (Some (snd Demo.twoContexts)).
Proof.
  apply mood_is_not_sent; try reflexivity. split; reflexivity.
Defined.

Lemma search_results_follow_the_reply_witness :
  exists places self',
    searchPlaces Demo.Date_now Demo.sleep Demo.stringify Demo.get_places
      "tacos" {| lat := 10%float; lng := 20%float |} None Demo.service
      (Demo.start [Return {| businesses := [Demo.sampleBusiness 10 20] |}])
    = (Return (VPlaces places), self',
       {| world := {| Demo.now := 120; Demo.replies := [] |}; log := [EvRequest] |})
    /\ length places = 1%nat
    /\ exists p, places !! 0%nat = Some p /\ place_placeId p = "p1"
                 /\ place_photos p = [] /\ place_hours p = None.
Proof.
  destruct (search_results_follow_the_reply Demo.Date_now Demo.sleep Demo.stringify
              Demo.get_places "tacos" {| lat := 10%float; lng := 20%float |} None
              Demo.service
              (Demo.start [Return {| businesses := [Demo.sampleBusiness 10 20] |}])
              {| world := {| Demo.now := 120; Demo.replies := [] |}; log := [EvRequest] |}
              {| businesses := [Demo.sampleBusiness 10 20] |} eq_refl eq_refl)
    as (places & self' & Hcall & Hlen & Heach).
  exists places, self'. split; [exact Hcall|]. split; [exact Hlen|].
  destruct (Heach 0%nat (Demo.sampleBusiness 10 20) eq_refl)
    as (p & Hp & Hid & _ & _ & _ & Hhours & Hnophoto & _).
  exists p. split; [exact Hp|]. split; [exact Hid|]. split; [|exact Hhours].
  apply Hnophoto. reflexivity.
Defined.

End YelpExtras.

(** ** Properties of the middleware *)

Module MiddlewareFacts.
Import Js Middleware.

(** X20: the error handler sends exactly one reply and never calls
    [next].  The reply's HTTP status and the status in its body are the
    same number, the error's own status when it has one other than 0
    and 500 otherwise; the message is the error's own when it is not
    empty and "Internal Server Error" otherwise, also for a status of
    500 or more, where only the label is replaced by "Internal Server
    Error"; below 500 the label is the error's name, or "Error". *)
Theorem errorHandler_reply (env_NODE_ENV : option string) (err : ApiError) :
  exists r,
    replies (errorHandler env_NODE_ENV err) = [r]
    /\ nextCalls (errorHandler env_NODE_ENV err) = 0%nat
    /\ res_status r = body_statusCode (res_json r)
    /\ res_status r <> 0
    /\ (forall c, err_statusCode err = Some c -> c <> 0 -> res_status r = c)
    /\ (err_statusCode err = None \/ err_statusCode err = Some 0 -> res_status r = 500)
    /\ body_message (res_json r) <> EmptyString
    /\ (err_message err <> EmptyString -> body_message (res_json r) = err_message err)
    /\ (err_message err = EmptyString ->
        body_message (res_json r) = "Internal Server Error")
    /\ (500 <= res_status r -> body_error (res_json r) = "Internal Server Error")
    /\ (res_status r < 500 ->
        body_error (res_json r) = or_else (Some (err_name err)) "Error").
Proof.
  unfold errorHandler. cbv zeta.
  set (statusCode := match err_statusCode err with
                     | Some c => if truthy_Z c then c else 500
                     | None => 500
                     end).
  assert (Hnz : statusCode <> 0).
  { unfold statusCode, truthy_Z. destruct (err_statusCode err) as [c|]; [|discriminate].
    destruct (Z.eqb_spec c 0); [discriminate | assumption]. }
  match goal with |- context [Reply ?r] => exists r end. split.
  { destruct (500 <=? statusCode); reflexivity. }
  cbn [res_status res_json body_statusCode body_message body_error].
  split; [destruct (500 <=? statusCode); reflexivity|].
  split; [reflexivity|]. split; [exact Hnz|].
  split.
  { intros c Hc Hne. unfold statusCode, truthy_Z. rewrite Hc.
    now destruct (Z.eqb_spec c 0). }
  split.
  { intros [H | H]; unfold statusCode; rewrite H; reflexivity. }
  split.
  { unfold or_else. destruct (err_message err); discriminate. }
  split.
  { intros Hm. unfold or_else. destruct (err_message err); [contradiction | reflexivity]. }
  split.
  { intros ->. reflexivity. }
  split.
  - intros H. destruct (Z.leb_spec 500 statusCode); [reflexivity | lia].
  - intros H. destruct (Z.leb_spec 500 statusCode); [lia | reflexivity].
Qed.

(** X21: the stack trace leaves the server only in development: the
    reply carries the error's stack when NODE_ENV is "development" and
    no stack for any other value or none; and the error console is
    written to exactly for statuses of 500 or more. *)
Theorem errorHandler_stack_and_log (env_NODE_ENV : option string) (err : ApiError) :
  (forall r, In (Reply r) (errorHandler env_NODE_ENV err) ->
             (env_NODE_ENV = Some "development" -> body_stack (res_json r) = err_stack err)
             /\ (env_NODE_ENV <> Some "development" -> body_stack (res_json r) = None)
             /\ (In ConsoleError (errorHandler env_NODE_ENV err) <-> 500 <= res_status r)).
Proof.
  unfold errorHandler. cbv zeta. intros r Hin.
  apply in_app_or in Hin as [Hin | [[= <-] | []]].
  { exfalso. revert Hin. destruct (500 <=? _); [intros [H | []]; discriminate H | intros []]. }
  cbn [res_json res_status body_stack]. split; [|split].
  - intros ->. reflexivity.
  - intros Hne. now rewrite bool_decide_eq_false_2.
  - destruct (Z.leb_spec 500 (match err_statusCode err with
                              | Some c => if truthy_Z c then c else 500
                              | None => 500
                              end)) as [Hge | Hlt].
    + split; [auto | intros _; now left].
    + split; [|lia]. cbn [app In]. intros [H | []]. discriminate H.
Qed.

Section Auth.
Context {World : Type}.
Context (verifySession : string -> string -> World ->
                         Completion Thrown (option ClerkSession) * World).

(** X22: a request passes [requireAuth] when its header is "Bearer "
    followed by a token that the identity provider, asked with that
    very token, answers with a session: [next] is then called once,
    nothing is replied, and the request carries the session's user id
    and session id. *)
Theorem requireAuth_accepts (req : AuthRequest) (token : string)
        (session : ClerkSession) (w w' : World) :
  authorization req = Some ("Bearer " +:+ token) ->
  verifySession token token w = (Return (Some session), w') ->
  requireAuth verifySession req w
  = ({| authorization := authorization req;
        auth := Some {| userId := session_userId session;
                        sessionId := session_id session |} |},
     [Next], w').
Proof.
  intros Hh Hv. unfold requireAuth, bearer. rewrite Hh.
  change (truthy_string ("Bearer " +:+ token)) with true.
  change (startsWith ("Bearer " +:+ token) "Bearer ") with (String.prefix EmptyString token).
  replace (String.prefix EmptyString token) with true by (now destruct token).
  cbn [andb]. change (substringFrom 7 ("Bearer " +:+ token)) with token.
  rewrite Hv. reflexivity.
Qed.

(** X23: [requireAuth] has two outcomes and no other.  Either it calls
    [next] once, replies nothing, and has set [req.auth] from a session
    the provider returned; or it never calls [next], leaves the request
    as it was and replies exactly once, with status 401 and the label
    "Unauthorized".  Without a header that starts with "Bearer " the
    provider is not asked at all. *)
Theorem requireAuth_outcomes (req : AuthRequest) (w : World) :
  let out := requireAuth verifySession req w in
  let req' := fst (fst out) in
  let effects := snd (fst out) in
  ((effects = [Next]
    /\ exists token session,
         verifySession token token w = (Return (Some session), snd out)
         /\ auth req' = Some {| userId := session_userId session;
                                sessionId := session_id session |})
   \/
   (nextCalls effects = 0%nat /\ req' = req
    /\ exists r, replies effects = [r] /\ res_status r = 401
                 /\ body_statusCode (res_json r) = 401
                 /\ body_error (res_json r) = "Unauthorized"
                 /\ body_stack (res_json r) = None))
  /\ (bearer (authorization req) = None ->
      snd out = w /\
      replies effects = [ {| res_status := 401;
                             res_json :=
                               {| body_error := "Unauthorized";
                                  body_message := "Missing or invalid authorization header";
                                  body_statusCode := 401;
                                  body_stack := None |} |} ]).
Proof.
  cbv zeta. unfold requireAuth.
  destruct (bearer (authorization req)) as [token|] eqn:Hb.
  - split; [|discriminate].
    destruct (verifySession token token w) as [[[session|]|e] w'] eqn:Hv; cbn [fst snd].
    + left. split; [reflexivity|]. exists token, session. split; [exact Hv | reflexivity].
    + right. split; [reflexivity|]. split; [reflexivity|]. eexists.
      split; [reflexivity|]. cbn. auto.
    + right. split; [reflexivity|]. split; [reflexivity|]. eexists.
      split; [reflexivity|]. cbn. auto.
  - cbn [fst snd]. split; [|intros _; split; reflexivity].
    right. split; [reflexivity|]. split; [reflexivity|]. eexists.
    split; [reflexivity|]. cbn. auto.
Qed.

(** X24: [optionalAuth] lets every request through: it calls [next]
    exactly once and never replies, whatever the header and whatever
    the provider does.  It sets [req.auth] only from a session the
    provider returned for the header's token, and otherwise leaves the
    request untouched. *)
Theorem optionalAuth_always_continues (req : AuthRequest) (w : World) :
  let out := optionalAuth verifySession req w in
  snd (fst out) = [Next]
  /\ (fst (fst out) = req
      \/ exists token session,
           bearer (authorization req) = Some token
           /\ verifySession token token w = (Return (Some session), snd out)
           /\ fst (fst out)
              = {| authorization := authorization req;
                   auth := Some {| userId := session_userId session;
                                   sessionId := session_id session |} |}).
Proof.
  cbv zeta. unfold optionalAuth.
  destruct (bearer (authorization req)) as [token|] eqn:Hb; [|split; auto].
  destruct (verifySession token token w) as [[[session|]|e] w'] eqn:Hv; cbn [fst snd];
    split; auto.
  right. exists token, session. auto.
Qed.
End Auth.

(** In production a 503 is logged and its stack stays on the server. *)
Lemma errorHandler_stack_and_log_witness :
  replies (errorHandler (Some "production")
             {| err_name := "Error"; err_message := "upstream down";
                err_statusCode := Some 503;
                err_stack := Some "Error: upstream down at ..." |})
  = [ {| res_status := 503;
         res_json := {| body_error := "Internal Server Error";
                        body_message := "upstream down";
                        body_statusCode := 503;
                        body_stack := None |} |} ]
  /\ In ConsoleError
        (errorHandler (Some "production")
           {| err_name := "Error"; err_message := "upstream down";
              err_statusCode := Some 503;
              err_stack := Some "Error: upstream down at ..." |}).
Proof.
  split; [reflexivity|].
  destruct (errorHandler_stack_and_log (Some "production")
              {| err_name := "Error"; err_message := "upstream down";
                 err_statusCode := Some 503;
                 err_stack := Some "Error: upstream down at ..." |}
              {| res_status := 503;
                 res_json := {| body_error := "Internal Server Error";
                                body_message := "upstream down";
                                body_statusCode := 503;
                                body_stack := None |} |})
    as (_ & _ & Hlog).
  - right. left. reflexivity.
  - apply Hlog. cbn. lia.
Defined.

Lemma requireAuth_accepts_witness :
  requireAuth Demo.verify {| authorization := Some "Bearer tok_abc"; auth := None |} tt
  = ({| authorization := Some "Bearer tok_abc";
        auth := Some {| userId := "user_1"; sessionId := "sess_1" |} |},
     [Next], tt).
Proof.
  apply (requireAuth_accepts Demo.verify
           {| authorization := Some "Bearer tok_abc"; auth := None |} "tok_abc"
           {| session_userId := "user_1"; session_id := "sess_1" |} tt tt);
    reflexivity.
Defined.

End MiddlewareFacts.

(** ** Properties of the chat input *)

Module ChatFacts.
Import Js ChatInterface.

Lemma skipSpaces_empty (s : string) : skipSpaces s = EmptyString <-> allSpace s = true.
Proof.
  induction s as [|c s IH]; cbn [skipSpaces allSpace]; [tauto|].
  destruct (isSpace c); cbn [andb]; [exact IH|]. split; discriminate.
Qed.

Lemma skipSpaces_allSpace (s : string) : allSpace (skipSpaces s) = allSpace s.
Proof.
  induction s as [|c s IH]; cbn [skipSpaces allSpace]; [reflexivity|].
  destruct (isSpace c) eqn:Hc; cbn [andb]; [exact IH|].
  cbn [allSpace]. now rewrite Hc.
Qed.

Lemma skipSpaces_first (s : string) (c : ascii) :
  firstChar (skipSpaces s) = Some c -> isSpace c = false.
Proof.
  induction s as [|x s IH]; cbn [skipSpaces]; [discriminate|].
  destruct (isSpace x) eqn:Hx; [exact IH|]. cbn [firstChar]. now intros [= <-].
Qed.

Lemma trimEnd_empty (s : string) : trimEnd s = EmptyString <-> allSpace s = true.
Proof.
  induction s as [|c s IH]; cbn [trimEnd allSpace]; [tauto|].
  destruct (trimEnd s) as [|d r].
  - destruct (isSpace c); cbn [andb].
    + split; [intros _; now apply IH | reflexivity].
    + split; discriminate.
  - split; [discriminate|]. intros H. apply andb_prop in H as [_ H].
    apply IH in H. discriminate H.
Qed.

Lemma trimEnd_first (s : string) :
  trimEnd s <> EmptyString -> firstChar (trimEnd s) = firstChar s.
Proof.
  destruct s as [|c s]; [reflexivity|]. cbn [trimEnd firstChar].
  destruct (trimEnd s); [|reflexivity]. destruct (isSpace c); [contradiction | reflexivity].
Qed.

Lemma trimEnd_last (s : string) :
  trimEnd s <> EmptyString ->
  exists c, lastChar (trimEnd s) = Some c /\ isSpace c = false.
Proof.
  induction s as [|x s IH]; cbn [trimEnd]; [contradiction|].
  destruct (trimEnd s) as [|d r] eqn:Ht.
  - destruct (isSpace x) eqn:Hx; [contradiction|]. intros _. exists x. auto.
  - intros _. destruct IH as (c & Hc & Hs); [discriminate|].
    exists c. split; [exact Hc | exact Hs].
Qed.

Lemma trim_empty (s : string) : trim s = EmptyString <-> allSpace s = true.
Proof. unfold trim. now rewrite trimEnd_empty, skipSpaces_allSpace. Qed.

(** X25: [handleSend] never sends a blank message.  When the input
    consists of white space only (or is empty) nothing is sent and the
    input stays; otherwise exactly one message is sent, the trimmed
    input, which is not empty and neither starts nor ends with white
    space, and the input is cleared. *)
Theorem handleSend_sends_trimmed (st : State) :
  (allSpace (inputValue st) = true -> handleSend st = st)
  /\
  (allSpace (inputValue st) = false ->
   exists msg first last,
     handleSend st = {| inputValue := EmptyString; sent := sent st ++ [msg];
                        prevented := prevented st |}
     /\ msg = trim (inputValue st) /\ msg <> EmptyString
     /\ firstChar msg = Some first /\ isSpace first = false
     /\ lastChar msg = Some last /\ isSpace last = false).
Proof.
  unfold handleSend. split.
  - intros H. apply trim_empty in H. now rewrite H.
  - intros H.
    assert (Hne : trim (inputValue st) <> EmptyString).
    { intros He. apply trim_empty in He. congruence. }
    destruct (trimEnd_last (skipSpaces (inputValue st)) Hne) as (last & Hlast & Hls).
    pose proof (trimEnd_first (skipSpaces (inputValue st)) Hne) as Hfirst.
    fold (trim (inputValue st)) in Hlast, Hfirst.
    destruct (trim (inputValue st)) as [|first rest] eqn:Ht; [contradiction|].
    cbn [truthy_string]. exists (String first rest), first, last.
    repeat apply conj; try reflexivity; try assumption.
    cbn [firstChar] in Hfirst. symmetry in Hfirst. now apply skipSpaces_first in Hfirst.
Qed.

(** X26: the send button and the Enter key agree with [handleSend].
    While the interface is not loading, the button is disabled exactly
    when a send would do nothing; Enter without Shift suppresses the
    line break and sends under the same condition; Shift+Enter and
    every other key change nothing. *)
Theorem send_controls_agree (st : State) :
  (sendDisabled false (inputValue st) = true <-> handleSend st = st)
  /\ (sendDisabled false (inputValue st) = false <->
      length (sent (handleSend st)) = S (length (sent st)))
  /\ handleKeyPress "Enter" false st
     = handleSend {| inputValue := inputValue st; sent := sent st;
                     prevented := S (prevented st) |}
  /\ handleKeyPress "Enter" true st = st
  /\ (forall key shift, key <> "Enter" -> handleKeyPress key shift st = st).
Proof.
  unfold sendDisabled, handleSend. cbn [orb].
  destruct (truthy_string (trim (inputValue st))) eqn:Ht; cbn [negb].
  - split; [|split; [|split; [|split]]].
    + split; [discriminate|]. intros H. apply (f_equal sent) in H. cbn [sent] in H.
      apply (f_equal (@length string)) in H. rewrite length_app in H. cbn in H. lia.
    + split; [|reflexivity]. intros _. cbn [sent]. rewrite length_app. cbn. lia.
    + reflexivity.
    + reflexivity.
    + intros key shift Hk. unfold handleKeyPress.
      destruct (String.eqb_spec key "Enter"); [contradiction | reflexivity].
  - split; [|split; [|split; [|split]]].
    + split; reflexivity.
    + split; [discriminate | lia].
    + reflexivity.
    + reflexivity.
    + intros key shift Hk. unfold handleKeyPress.
      destruct (String.eqb_spec key "Enter"); [contradiction | reflexivity].
Qed.

End ChatFacts.
